(** * BusTub buffer pool: LRU replacer and buffer pool manager

    A shallow embedding of [src/buffer/lru_replacer.cpp] and
    [src/buffer/buffer_pool_manager.cpp], followed by the properties of the
    specification that concern them.

    Conventions of the embedding.
    - [page_id_t] and [frame_id_t] are [int32_t] in BusTub; they are carried
      as [Z].  The only arithmetic the two files do on an [int] is
      [pin_count_++] and [pin_count_--]; the result is taken in two's
      complement, written with [int32_wrap].
    - A C++ method that mutates its object is a computation in a state
      monad over the object; its statements are the steps of the
      computation, in the order of the source.
    - A computation ends in an [outcome]: [Returns] with the value and the
      new object; [Blocks], for a call that never returns because it waits
      for a [std::mutex] that nobody releases; [Undefined], where C++ leaves
      the behaviour undefined (an index outside [pages_], [back()] of an
      empty [std::list]). *)

From Stdlib Require Import ZArith List Bool Lia.
From stdpp Require Import base option list gmap.

Open Scope Z_scope.

Abbreviation page_id_t := Z.
Abbreviation frame_id_t := Z.

(** Two's complement wrap-around of a 32-bit [int]. *)
Definition int32_wrap (z : Z) : Z := (z + 2 ^ 31) mod 2 ^ 32 - 2 ^ 31.

(** What a call does: return, wait forever, or leave the defined language. *)
Inductive outcome (A : Type) : Type :=
| Returns (a : A)
| Blocks
| Undefined.

Arguments Returns {A} a.
Arguments Blocks {A}.
Arguments Undefined {A}.

(** ** A state monad over [outcome] *)

Definition M (S A : Type) : Type := S -> outcome (A * S).

Definition ret {S A} (a : A) : M S A := fun s => Returns (a, s).

Definition bind {S A B} (m : M S A) (k : A -> M S B) : M S B :=
  fun s =>
    match m s with
    | Returns (a, s1) => k a s1
    | Blocks => Blocks
    | Undefined => Undefined
    end.

Definition get {S} : M S S := fun s => Returns (s, s).

Definition modify {S} (f : S -> S) : M S unit := fun s => Returns (tt, f s).

Declare Scope monad_scope.
Delimit Scope monad_scope with monad.
Notation "x <- m ;; k" := (bind m (fun x => k))
  (at level 100, m at next level, right associativity) : monad_scope.
Notation "m ;; k" := (bind m (fun _ => k))
  (at level 100, right associativity) : monad_scope.

(** ** lru_replacer.cpp *)

Module LRUReplacer.

(** The object: [capacity], [lru_list] (front of the [std::list] first),
    [lruMap] and [latch].  [lruMap] maps a frame id to its iterator in
    [lru_list]; no method ever dereferences a stored iterator, so only the key
    set is kept.  [latch] is [true] while the mutex is held. *)
Record t : Type := mk {
  capacity : nat;
  lru_list : list frame_id_t;
  lruMap : gset Z;
  latch : bool
}.

Definition set_lru_list (l : list frame_id_t) (r : t) : t :=
  {| capacity := capacity r; lru_list := l; lruMap := lruMap r; latch := latch r |}.

Definition set_lruMap (m : gset Z) (r : t) : t :=
  {| capacity := capacity r; lru_list := lru_list r; lruMap := m; latch := latch r |}.

Definition set_latch (b : bool) (r : t) : t :=
  {| capacity := capacity r; lru_list := lru_list r; lruMap := lruMap r; latch := b |}.

Open Scope monad_scope.

(** [LRUReplacer::LRUReplacer(num_pages)]. *)
Definition init (num_pages : nat) : t :=
  {| capacity := num_pages; lru_list := []; lruMap := ∅; latch := false |}.

(** [latch.lock()]: a [std::mutex] is not recursive; locking one that is
    held waits until it is released, which nobody does. *)
Definition lock : M t unit := fun r =>
  if latch r then Blocks else Returns (tt, set_latch true r).

(** [latch.unlock()]. *)
Definition unlock : M t unit := modify (set_latch false).

(** [lru_list.back()]: undefined on an empty list. *)
Definition back : M t frame_id_t := fun r =>
  match last (lru_list r) with
  | Some x => Returns (x, r)
  | None => Undefined
  end.

(** [lru_list.pop_back()]. *)
Definition pop_back : M t unit :=
  modify (fun r => set_lru_list (removelast (lru_list r)) r).

(** [lruMap.erase(frame_id)]. *)
Definition map_erase (frame_id : frame_id_t) : M t unit :=
  modify (fun r => set_lruMap (lruMap r ∖ {[ frame_id ]}) r).

(** [bool Victim(frame_id_t *frame_id)]: the result is [Some f] when the
    method returns true having stored [f] in [*frame_id], [None] when it
    returns false.  The [return false] of the empty case comes before
    [latch.unlock()]: the latch stays held. *)
Definition Victim : M t (option frame_id_t) :=
  lock ;;
  r <- get ;;
  if decide (lru_list r = []) then ret None
  else
    frame_temp <- back ;;
    pop_back ;;
    map_erase frame_temp ;;
    unlock ;;
    ret (Some frame_temp).

(** [lru_list.remove(value)]: erases every element equal to [value]. *)
Definition list_remove (x : frame_id_t) : M t unit :=
  modify (fun r => set_lru_list (filter (fun y => y ≠ x) (lru_list r)) r).

(** [void Pin(frame_id_t frame_id)]. *)
Definition Pin (frame_id : frame_id_t) : M t unit :=
  lock ;;
  r <- get ;;
  (if decide (frame_id ∈ lruMap r) then
     list_remove frame_id ;;
     map_erase frame_id
   else ret tt) ;;
  unlock.

(** [lru_list.push_front(frame_id)]. *)
Definition push_front (frame_id : frame_id_t) : M t unit :=
  modify (fun r => set_lru_list (frame_id :: lru_list r) r).

(** [lruMap[frame_id] = lru_list.begin()]. *)
Definition map_insert (frame_id : frame_id_t) : M t unit :=
  modify (fun r => set_lruMap ({[ frame_id ]} ∪ lruMap r) r).

(** [void Unpin(frame_id_t frame_id)].  At capacity the back of the list is
    dropped first. *)
Definition Unpin (frame_id : frame_id_t) : M t unit :=
  lock ;;
  r <- get ;;
  (if decide (frame_id ∈ lruMap r) then ret tt
   else
     (if (capacity r <=? length (lru_list r))%nat then
        last_ <- back ;;
        pop_back ;;
        map_erase last_
      else ret tt) ;;
     push_front frame_id ;;
     map_insert frame_id) ;;
  unlock.

(** [size_t Size()]: reads the list without taking the latch. *)
Definition Size (r : t) : nat := length (lru_list r).

End LRUReplacer.

(** ** The classes the manager uses whose sources are not part of the files
    above: [Page] and [DiskManager], and the constants of [config.h]. *)

(** The constants [PAGE_SIZE] and [INVALID_PAGE_ID] are declared outside the
    two files; they are parameters of the development. *)
Class Config : Type := {
  PAGE_SIZE : nat;
  INVALID_PAGE_ID : page_id_t
}.

(** Modelled from the spec: the class [Page] (page.h, not among the source
    files), a frame of the pool, with the four fields the manager reads and
    writes: the page-sized buffer, the id of the resident page, the pin
    count (an [int]) and the dirty bit. *)
Record Page : Type := mkPage {
  data_ : list Byte.byte;
  page_id_ : page_id_t;
  pin_count_ : Z;
  is_dirty_ : bool
}.

Definition set_data (d : list Byte.byte) (p : Page) : Page :=
  {| data_ := d; page_id_ := page_id_ p;
     pin_count_ := pin_count_ p; is_dirty_ := is_dirty_ p |}.

Definition set_page_id (i : page_id_t) (p : Page) : Page :=
  {| data_ := data_ p; page_id_ := i;
     pin_count_ := pin_count_ p; is_dirty_ := is_dirty_ p |}.

Definition set_pin_count (n : Z) (p : Page) : Page :=
  {| data_ := data_ p; page_id_ := page_id_ p;
     pin_count_ := n; is_dirty_ := is_dirty_ p |}.

Definition set_is_dirty (b : bool) (p : Page) : Page :=
  {| data_ := data_ p; page_id_ := page_id_ p;
     pin_count_ := pin_count_ p; is_dirty_ := b |}.

(** Modelled from the spec: [Page::IsDirty], declared in page.h, which is not
    among the source files; the dirty bit of the frame. *)
Definition IsDirty (p : Page) : bool := is_dirty_ p.

(** Modelled from the spec: [Page::ResetMemory], declared in page.h, which is
    not among the source files; "zero the data buffer". *)
Definition ResetMemory `{Config} (p : Page) : Page :=
  set_data (repeat Byte.x00 PAGE_SIZE) p.

(** Modelled from the spec: the state of a frame after [new Page[n]]
    (constructor in page.h, not among the source files): an empty frame has
    [INVALID_PAGE_ID], pin count 0, a clear dirty bit and a zeroed buffer. *)
Definition Page_new `{Config} : Page :=
  {| data_ := repeat Byte.x00 PAGE_SIZE; page_id_ := INVALID_PAGE_ID;
     pin_count_ := 0; is_dirty_ := false |}.

(** Modelled from the spec: the Disk Manager, whose source is not among the
    files; [image] is the on-disk image of every page id and [next_page_id_]
    the allocator's counter ("ids are monotonic"). *)
Record DiskManager : Type := mkDisk {
  image : page_id_t -> list Byte.byte;
  next_page_id_ : page_id_t
}.

(** Modelled from the spec: [write_page(page_id, buffer)] persists the
    buffer. *)
Definition disk_write (page_id : page_id_t) (d : list Byte.byte) (dm : DiskManager) : DiskManager :=
  {| image := fun q => if decide (q = page_id) then d else image dm q;
     next_page_id_ := next_page_id_ dm |}.

(** Modelled from the spec: [allocate_page()] returns a fresh id. *)
Definition disk_allocate (dm : DiskManager) : page_id_t * DiskManager :=
  (next_page_id_ dm, {| image := image dm; next_page_id_ := next_page_id_ dm + 1 |}).

(** The effects the manager issues, in program order: the four calls on the
    Disk Manager and the two mutations of [page_table_]. *)
Inductive event : Type :=
| EvWritePage (page_id : page_id_t) (d : list Byte.byte)
| EvReadPage (page_id : page_id_t)
| EvAllocatePage (page_id : page_id_t)
| EvDeallocatePage (page_id : page_id_t)
| EvTableErase (page_id : page_id_t)
| EvTableInsert (page_id : page_id_t) (frame_id : frame_id_t).

(** The calls of [read_page] among the effects. *)
Definition is_read (e : event) : bool :=
  match e with EvReadPage _ => true | _ => false end.

(** ** buffer_pool_manager.cpp *)

Module BufferPoolManager.

(** The object.  [pages_] is the array [new Page[pool_size_]], so
    [pool_size_] is its length.  [disk_manager_] points to the Disk Manager,
    whose state is threaded through.  [history] is a ghost field listing the
    effects issued so far, oldest first.  [log_manager_] is never used by the
    methods and is left out; [latch_] is taken by [std::lock_guard] and
    released on every return, so it is free at every call and left out too. *)
Record t : Type := mk {
  pages_ : list Page;
  disk_manager_ : DiskManager;
  replacer_ : LRUReplacer.t;
  free_list_ : list frame_id_t;
  page_table_ : gmap Z Z;
  history : list event
}.

Definition pool_size_ (s : t) : nat := length (pages_ s).

Definition set_pages (v : list Page) (s : t) : t :=
  {| pages_ := v; disk_manager_ := disk_manager_ s; replacer_ := replacer_ s;
     free_list_ := free_list_ s; page_table_ := page_table_ s; history := history s |}.

Definition set_disk (v : DiskManager) (s : t) : t :=
  {| pages_ := pages_ s; disk_manager_ := v; replacer_ := replacer_ s;
     free_list_ := free_list_ s; page_table_ := page_table_ s; history := history s |}.

Definition set_replacer (v : LRUReplacer.t) (s : t) : t :=
  {| pages_ := pages_ s; disk_manager_ := disk_manager_ s; replacer_ := v;
     free_list_ := free_list_ s; page_table_ := page_table_ s; history := history s |}.

Definition set_free_list (v : list frame_id_t) (s : t) : t :=
  {| pages_ := pages_ s; disk_manager_ := disk_manager_ s; replacer_ := replacer_ s;
     free_list_ := v; page_table_ := page_table_ s; history := history s |}.

Definition set_page_table (v : gmap Z Z) (s : t) : t :=
  {| pages_ := pages_ s; disk_manager_ := disk_manager_ s; replacer_ := replacer_ s;
     free_list_ := free_list_ s; page_table_ := v; history := history s |}.

Definition log (e : event) (s : t) : t :=
  {| pages_ := pages_ s; disk_manager_ := disk_manager_ s; replacer_ := replacer_ s;
     free_list_ := free_list_ s; page_table_ := page_table_ s;
     history := history s ++ [e] |}.

Section WithConfig.
Context `{Config}.

Open Scope monad_scope.

(** [BufferPoolManager(pool_size, disk_manager, log_manager)]: every frame
    starts in the free list, as [static_cast<int>(i)]. *)
Definition init (pool_size : nat) (disk_manager : DiskManager) : t :=
  {| pages_ := repeat Page_new pool_size;
     disk_manager_ := disk_manager;
     replacer_ := LRUReplacer.init pool_size;
     free_list_ := map (fun i => int32_wrap (Z.of_nat i)) (seq 0 pool_size);
     page_table_ := ∅;
     history := [] |}.

(** [&pages_[frame_id]]: a pointer to a frame is its index in [pages_]; an
    index outside the array is undefined behaviour. *)
Definition page_ref (frame_id : frame_id_t) : M t nat := fun s =>
  if decide (0 <= frame_id < Z.of_nat (pool_size_ s))
  then Returns (Z.to_nat frame_id, s)
  else Undefined.

(** Reading the frame a pointer designates. *)
Definition deref (page : nat) : M t Page := fun s =>
  match pages_ s !! page with
  | Some p => Returns (p, s)
  | None => Undefined
  end.

(** Writing fields of the frame a pointer designates. *)
Definition update_page (page : nat) (f : Page -> Page) : M t unit :=
  modify (fun s => set_pages (alter f page (pages_ s)) s).

(** [replacer_->method(...)] *)
Definition on_replacer {A} (m : M LRUReplacer.t A) : M t A := fun s =>
  match m (replacer_ s) with
  | Returns (a, r) => Returns (a, set_replacer r s)
  | Blocks => Blocks
  | Undefined => Undefined
  end.

(** [disk_manager_->WritePage(page_id, data)] *)
Definition WritePage (page_id : page_id_t) (d : list Byte.byte) : M t unit :=
  modify (fun s => log (EvWritePage page_id d)
                       (set_disk (disk_write page_id d (disk_manager_ s)) s)).

(** [disk_manager_->ReadPage(page_id, page->data_)].  Modelled from the
    spec: "fills buffer with the on-disk image". *)
Definition ReadPage (page_id : page_id_t) (page : nat) : M t unit :=
  modify (fun s => log (EvReadPage page_id)
                       (set_pages (alter (set_data (image (disk_manager_ s) page_id))
                                         page (pages_ s)) s)).

(** [disk_manager_->AllocatePage()] *)
Definition AllocatePage : M t page_id_t := fun s =>
  let (page_id, dm) := disk_allocate (disk_manager_ s) in
  Returns (page_id, log (EvAllocatePage page_id) (set_disk dm s)).

(** [disk_manager_->DeallocatePage(page_id)].  Modelled from the spec:
    "marks the id free"; the mark is not observable through the other three
    calls, the call is logged. *)
Definition DeallocatePage (page_id : page_id_t) : M t unit :=
  modify (log (EvDeallocatePage page_id)).

(** [page_table_.erase(page_id)] *)
Definition table_erase (page_id : page_id_t) : M t unit :=
  modify (fun s => log (EvTableErase page_id)
                       (set_page_table (delete page_id (page_table_ s)) s)).

(** [page_table_[page_id] = frame_id] *)
Definition table_insert (page_id : page_id_t) (frame_id : frame_id_t) : M t unit :=
  modify (fun s => log (EvTableInsert page_id frame_id)
                       (set_page_table (<[page_id := frame_id]> (page_table_ s)) s)).

(** The replacement frame of [FetchPageImpl] (lines 55-63) and of
    [NewPageImpl] (lines 120-128), the same statements in both: the front of
    the free list, else the replacer's victim; [None] where the method
    returns [nullptr]. *)
Definition find_replacement : M t (option frame_id_t) :=
  s <- get ;;
  match free_list_ s with
  | frame_id_ :: rest => modify (set_free_list rest) ;; ret (Some frame_id_)
  | [] => on_replacer LRUReplacer.Victim
  end.

(** [Page *FetchPageImpl(page_id_t page_id)]: the returned pointer is given
    as the frame id, [None] for [nullptr]. *)
Definition FetchPageImpl (page_id : page_id_t) : M t (option frame_id_t) :=
  s <- get ;;
  match page_table_ s !! page_id with
  | Some frame_id =>
      re_page <- page_ref frame_id ;;
      on_replacer (LRUReplacer.Pin frame_id) ;;
      update_page re_page (fun p => set_pin_count (int32_wrap (pin_count_ p + 1)) p) ;;
      ret (Some frame_id)
  | None =>
      victim <- find_replacement ;;
      match victim with
      | None => ret None
      | Some frame_id_ =>
          re_page_ <- page_ref frame_id_ ;;
          p <- deref re_page_ ;;
          (if IsDirty p then
             WritePage (page_id_ p) (data_ p) ;;
             update_page re_page_ (set_is_dirty false)
           else ret tt) ;;
          p <- deref re_page_ ;;
          table_erase (page_id_ p) ;;
          table_insert (page_id_ p) frame_id_ ;;
          update_page re_page_ ResetMemory ;;
          ReadPage (page_id_ p) re_page_ ;;
          ret (Some frame_id_)
      end
  end.

(** [bool UnpinPageImpl(page_id_t page_id, bool is_dirty)] *)
Definition UnpinPageImpl (page_id : page_id_t) (is_dirty : bool) : M t bool :=
  s <- get ;;
  match page_table_ s !! page_id with
  | None => ret false
  | Some frame_id =>
      u_page <- page_ref frame_id ;;
      p <- deref u_page ;;
      if decide (pin_count_ p = 0) then ret false
      else
        update_page u_page (fun p => set_pin_count (int32_wrap (pin_count_ p - 1)) p) ;;
        p <- deref u_page ;;
        (if decide (pin_count_ p = 0)
         then on_replacer (LRUReplacer.Unpin frame_id)
         else ret tt) ;;
        (if is_dirty then update_page u_page (set_is_dirty true) else ret tt) ;;
        ret true
  end.

(** [bool FlushPageImpl(page_id_t page_id)] *)
Definition FlushPageImpl (page_id : page_id_t) : M t bool :=
  s <- get ;;
  match page_table_ s !! page_id with
  | None => ret false
  | Some frame_id =>
      f_page <- page_ref frame_id ;;
      p <- deref f_page ;;
      WritePage page_id (data_ p) ;;
      ret true
  end.

(** [Page *NewPageImpl(page_id_t *page_id)]: the result pairs the id stored
    in [*page_id] with the returned pointer, [None] for [nullptr]. *)
Definition NewPageImpl : M t (option (page_id_t * frame_id_t)) :=
  victim <- find_replacement ;;
  match victim with
  | None => ret None
  | Some frame_id_ =>
      page_id <- AllocatePage ;;
      re_page_ <- page_ref frame_id_ ;;
      update_page re_page_ (set_page_id page_id) ;;
      p <- deref re_page_ ;;
      (if IsDirty p then
         WritePage (page_id_ p) (data_ p) ;;
         update_page re_page_ (set_is_dirty false)
       else ret tt) ;;
      p <- deref re_page_ ;;
      table_erase (page_id_ p) ;;
      table_insert (page_id_ p) frame_id_ ;;
      update_page re_page_ ResetMemory ;;
      ReadPage (page_id_ p) re_page_ ;;
      ret (Some (page_id, frame_id_))
  end.

(** [bool DeletePageImpl(page_id_t page_id)] *)
Definition DeletePageImpl (page_id : page_id_t) : M t bool :=
  s <- get ;;
  match page_table_ s !! page_id with
  | None => ret true
  | Some frame_id =>
      d_page <- page_ref frame_id ;;
      p <- deref d_page ;;
      if decide (pin_count_ p ≠ 0) then ret false
      else
        update_page d_page ResetMemory ;;
        table_erase page_id ;;
        DeallocatePage page_id ;;
        modify (fun s => set_free_list (free_list_ s ++ [page_id]) s) ;;
        ret true
  end.

(** The body of the loop of [FlushAllPagesImpl] at index [i]. *)
Definition flush_frame (i : nat) : M t unit :=
  p <- deref i ;;
  if negb (page_id_ p =? INVALID_PAGE_ID) && IsDirty p then
    WritePage (page_id_ p) (data_ p) ;;
    update_page i (set_is_dirty false)
  else ret tt.

(** [for (size_t i = ...; i < pool_size_; i++)] with [n] iterations left. *)
Fixpoint flush_loop (n : nat) (i : nat) : M t unit :=
  match n with
  | O => ret tt
  | S n' => flush_frame i ;; flush_loop n' (S i)
  end.

(** [void FlushAllPagesImpl()] *)
Definition FlushAllPagesImpl : M t unit :=
  s <- get ;;
  flush_loop (pool_size_ s) 0.

End WithConfig.

End BufferPoolManager.


(** ** Vocabulary of the statements and inputs of the worked examples *)

Import BufferPoolManager.

(** A call returned, and its value and final state satisfy [P]. *)
Definition returns_with {S A} (o : outcome (A * S)) (P : A -> S -> Prop) : Prop :=
  match o with
  | Returns (a, s) => P a s
  | Blocks | Undefined => False
  end.

(** The state a script leaves behind. *)
Definition state_after {A} (m : M t A) (s : t) : t :=
  match m s with
  | Returns (_, s') => s'
  | Blocks | Undefined => s
  end.

(** Unpinning the frames of a list, first to last. *)
Fixpoint unpin_all (fs : list frame_id_t) : M LRUReplacer.t unit :=
  match fs with
  | [] => ret tt
  | f :: fs' => (LRUReplacer.Unpin f ;; unpin_all fs')%monad
  end.

(** [n] successive calls of [Victim], their results in call order. *)
Fixpoint victims (n : nat) : M LRUReplacer.t (list (option frame_id_t)) :=
  match n with
  | O => ret []
  | S n' => (v <- LRUReplacer.Victim ;; vs <- victims n' ;; ret (v :: vs))%monad
  end.

(** A frame that [FlushAllPagesImpl] has to write: occupied and dirty. *)
Definition needs_flush `{Config} (p : Page) : bool :=
  negb (page_id_ p =? INVALID_PAGE_ID) && is_dirty_ p.

(** Such a frame once written: its dirty bit is clear. *)
Definition flushed `{Config} (p : Page) : Page :=
  if needs_flush p then set_is_dirty false p else p.

(** The [write_page] call that persists a frame under its own page id. *)
Definition write_event (p : Page) : event := EvWritePage (page_id_ p) (data_ p).

Definition write_back (dm : DiskManager) (p : Page) : DiskManager :=
  disk_write (page_id_ p) (data_ p) dm.

(** The manager after a [Victim] that found nothing: the replacer's latch is
    held, nothing else differs. *)
Definition latch_held (s : t) : t :=
  set_replacer (LRUReplacer.set_latch true (replacer_ s)) s.

(** BusTub's values of the two constants. *)
#[global] Instance bustub_config : Config :=
  {| PAGE_SIZE := 4096; INVALID_PAGE_ID := -1 |}.

(** An empty disk whose allocator starts at page id 0. *)
Definition disk0 : DiskManager :=
  {| image := fun _ => repeat Byte.x00 PAGE_SIZE; next_page_id_ := 0 |}.

(** A page full of the letter A. *)
Definition bytesA : list Byte.byte := repeat Byte.x41 PAGE_SIZE.

(** What a caller does with the pointer it was handed: write the buffer of a
    frame through [Page::GetData()]. *)
Definition caller_write (frame : nat) (d : list Byte.byte) : M t unit :=
  update_page frame (set_data d).

(** A pool of one frame whose only frame was handed out by [NewPageImpl]:
    the free list and the replacer are both empty. *)
Definition pool_exhausted : t := state_after NewPageImpl (init 1 disk0).

(** A pool of one frame holding page 0, fetched once: pin count 1. *)
Definition pinned_once : t :=
  state_after (NewPageImpl ;; FetchPageImpl 0)%monad (init 1 disk0).

(** A pool of one frame holding page 0, which a caller fetched, filled with
    the letter A and unpinned as dirty: the frame is in the replacer. *)
Definition one_dirty_page : t :=
  state_after (NewPageImpl ;; FetchPageImpl 0 ;; caller_write 0 bytesA ;;
               UnpinPageImpl 0 true)%monad (init 1 disk0).

(** A pool of one frame whose frame 0 holds page 1, unpinned and dirty:
    page 0 was created, fetched and unpinned, page 1 was created over it,
    fetched and unpinned. *)
Definition page1_in_frame0 : t :=
  state_after (NewPageImpl ;; FetchPageImpl 0 ;; UnpinPageImpl 0 true ;;
               NewPageImpl ;; FetchPageImpl 1 ;; UnpinPageImpl 1 true)%monad
              (init 1 disk0).

(** The replacer's two containers agree and fit: [lru_list] holds no frame
    twice, [lruMap] holds exactly the frames of the list, and the list is no
    longer than [capacity]. *)
Definition replacer_ok (r : LRUReplacer.t) : Prop :=
  NoDup (LRUReplacer.lru_list r) /\
  (forall x, x ∈ LRUReplacer.lruMap r <-> x ∈ LRUReplacer.lru_list r) /\
  (length (LRUReplacer.lru_list r) <= LRUReplacer.capacity r)%nat.

(** [k] successive calls of [NewPageImpl], their results in call order. *)
Fixpoint new_pages `{Config} (k : nat) : M t (list (option (page_id_t * frame_id_t))) :=
  match k with
  | O => ret []
  | S k' => (r <- NewPageImpl ;; rs <- new_pages k' ;; ret (r :: rs))%monad
  end.

(** No pin count is negative. *)
Definition pins_nonneg (s : t) : Prop :=
  Forall (fun p => 0 <= pin_count_ p) (pages_ s).

(** A replacer of capacity 3 after the frames 0, 1 and 2 were unpinned in
    that order. *)
Definition tracking_three : LRUReplacer.t :=
  {| LRUReplacer.capacity := 3; LRUReplacer.lru_list := [2; 1; 0];
     LRUReplacer.lruMap := {[ 0; 1; 2 ]}; LRUReplacer.latch := false |}.

(** A pool of one frame holding page 0, fetched once (pin count 1), on
    which one more [NewPageImpl] has found no frame and returned none. *)
Definition pinned_after_exhaustion : t :=
  state_after (NewPageImpl ;; FetchPageImpl 0 ;; NewPageImpl)%monad
              (init 1 disk0).

(** * Properties *)

(** ** The monad *)

Lemma bind_returns {S A B} (m : M S A) (k : A -> M S B) s a s1 :
  m s = Returns (a, s1) -> bind m k s = k a s1.
Proof. intros E. unfold bind. now rewrite E. Qed.

Lemma int32_wrap_small z : - 2 ^ 31 <= z < 2 ^ 31 -> int32_wrap z = z.
Proof. intros Hz. unfold int32_wrap. rewrite Z.mod_small; lia. Qed.

(** ** The replacer *)

Section Replacer.
Import LRUReplacer.
Open Scope monad_scope.

Ltac run_replacer :=
  unfold Victim, Pin, Unpin, bind, lock, unlock, back, pop_back, map_erase,
    list_remove, push_front, map_insert, get, modify, ret,
    set_latch, set_lruMap, set_lru_list; simpl.

(** On an empty list [Victim] returns false and keeps the latch. *)
Lemma victim_empty r :
  latch r = false -> lru_list r = [] ->
  Victim r = Returns (None, set_latch true r).
Proof.
  intros Hl He. run_replacer. rewrite Hl. simpl.
  destruct (decide (lru_list r = [])) as [_|Hne]; [reflexivity|contradiction].
Qed.

(** On a list that ends in [f], [Victim] hands out [f] and forgets it. *)
Lemma victim_back r l f :
  latch r = false -> lru_list r = l ++ [f] ->
  Victim r = Returns (Some f, mk (capacity r) l (lruMap r ∖ {[ f ]}) false).
Proof.
  intros Hl He. run_replacer. rewrite Hl. simpl.
  destruct (decide (lru_list r = [])) as [Hnil|_].
  { rewrite He in Hnil. now destruct l. }
  rewrite He. simpl. rewrite last_snoc. simpl. now rewrite removelast_last.
Qed.

(** A held latch is never acquired. *)
Lemma victim_held r : latch r = true -> Victim r = Blocks.
Proof. intros E. run_replacer. now rewrite E. Qed.

(** Below capacity, an untracked frame goes to the front. *)
Lemma unpin_fresh r f :
  latch r = false -> f ∉ lruMap r ->
  (length (lru_list r) < capacity r)%nat ->
  Unpin f r =
  Returns (tt, mk (capacity r) (f :: lru_list r) ({[ f ]} ∪ lruMap r) false).
Proof.
  intros Hl Hf Hc. run_replacer. rewrite Hl. simpl.
  destruct (decide (f ∈ lruMap r)) as [Hin|_]; [contradiction|].
  destruct (Nat.leb_spec (capacity r) (length (lru_list r))); [lia|].
  reflexivity.
Qed.

(** With a free latch and a capacity that is not zero, [Unpin] returns and
    the frame is tracked; it is at the front if it was not tracked before,
    and nothing moves if it was. *)
Lemma unpin_tracks r f :
  latch r = false -> (0 < capacity r)%nat ->
  exists r', Unpin f r = Returns (tt, r') /\
    f ∈ lruMap r' /\ latch r' = false /\
    (f ∉ lruMap r -> head (lru_list r') = Some f) /\
    (f ∈ lruMap r -> r' = r).
Proof.
  intros Hl Hc. run_replacer. rewrite Hl. simpl.
  destruct (decide (f ∈ lruMap r)) as [Hin|Hnin].
  - eexists. split; [reflexivity|]. simpl. repeat split; try done.
    intros _. destruct r; simpl in *. now subst.
  - destruct (Nat.leb_spec (capacity r) (length (lru_list r))) as [Hfull|Hroom].
    + simpl. destruct (last (lru_list r)) as [x|] eqn:El.
      * eexists. split; [reflexivity|]. simpl.
        repeat split; try done. apply elem_of_union_l. now apply elem_of_singleton.
      * apply last_None in El. rewrite El in Hfull. simpl in Hfull. lia.
    + eexists. split; [reflexivity|]. simpl.
      repeat split; try done. apply elem_of_union_l. now apply elem_of_singleton.
Qed.

Lemma unpin_all_order fs : forall r,
  latch r = false -> NoDup fs -> (forall f, f ∈ fs -> f ∉ lruMap r) ->
  (length (lru_list r) + length fs <= capacity r)%nat ->
  exists r', unpin_all fs r = Returns (tt, r') /\ latch r' = false /\
             lru_list r' = rev fs ++ lru_list r.
Proof.
  induction fs as [|f fs IH]; intros r Hl Hnd Hfresh Hcap.
  - exists r. now cbn.
  - apply NoDup_cons in Hnd as [Hnotin Hnd]. cbn [length] in Hcap.
    destruct (IH (mk (capacity r) (f :: lru_list r) ({[ f ]} ∪ lruMap r) false))
      as (r' & Hrun & Hl' & Hlist).
    + reflexivity.
    + exact Hnd.
    + intros x Hx. cbn. intros Hin. apply elem_of_union in Hin as [Hin|Hin].
      * apply elem_of_singleton in Hin. subst x. contradiction.
      * apply (Hfresh x); [now right | exact Hin].
    + cbn. lia.
    + exists r'. split; [|split; [exact Hl'|]].
      * cbn [unpin_all]. rewrite (bind_returns _ _ _ _ _ (unpin_fresh r f Hl
          (Hfresh f ltac:(now left)) ltac:(lia))). exact Hrun.
      * rewrite Hlist. cbn. now rewrite <- app_assoc.
Qed.

Lemma victims_order xs : forall r pre,
  latch r = false -> lru_list r = pre ++ rev xs ->
  exists r', victims (length xs) r = Returns (Some <$> xs, r') /\
             latch r' = false /\ lru_list r' = pre.
Proof.
  induction xs as [|x xs IH]; intros r pre Hl He.
  - exists r. cbn in *. now rewrite app_nil_r in He.
  - cbn [rev] in He. rewrite app_assoc in He.
    destruct (IH (mk (capacity r) (pre ++ rev xs) (lruMap r ∖ {[ x ]}) false) pre)
      as (r' & Hrun & Hl' & Hlist); [reflexivity|reflexivity|].
    exists r'. split; [|now split].
    cbn [length victims].
    rewrite (bind_returns _ _ _ _ _ (victim_back r _ x Hl He)).
    rewrite (bind_returns _ _ _ _ _ Hrun). reflexivity.
Qed.

(** LRU order for any number of frames: unpinned on an empty replacer that
    has room for them, distinct frames come back from [Victim] in the order
    of their unpinning. *)
Lemma lru_order_general r fs :
  latch r = false -> lru_list r = [] -> lruMap r = ∅ -> NoDup fs ->
  (length fs <= capacity r)%nat ->
  exists r', (unpin_all fs ;; victims (length fs)) r = Returns (Some <$> fs, r')
             /\ lru_list r' = [].
Proof.
  intros Hl He Hm Hnd Hcap.
  destruct (unpin_all_order fs r Hl Hnd) as (r1 & Hrun1 & Hl1 & Hlist1).
  { intros f _. rewrite Hm. apply not_elem_of_empty. }
  { rewrite He. cbn. lia. }
  rewrite He, app_nil_r in Hlist1.
  destruct (victims_order fs r1 [] Hl1 Hlist1) as (r2 & Hrun2 & _ & Hlist2).
  exists r2. split; [|exact Hlist2].
  now rewrite (bind_returns _ _ _ _ _ Hrun1).
Qed.

(** X22.  With the latch free, [Victim] returns none exactly when the replacer
    tracks no frame; otherwise it removes and returns the back of the list,
    and [Unpin] puts an untracked frame at the front, so the back is the
    frame unpinned longest ago.  In particular three distinct frames
    unpinned in the order f1, f2, f3 on an empty replacer that has room for
    them are the results of the next three calls of [Victim], in that
    order. *)
Theorem victim_least_recently_unpinned (r : LRUReplacer.t) :
  latch r = false ->
  ((exists r', Victim r = Returns (None, r')) <-> lru_list r = []) /\
  (forall l f, lru_list r = l ++ [f] ->
     Victim r = Returns (Some f, mk (capacity r) l (lruMap r ∖ {[ f ]}) false)) /\
  (forall f, f ∉ lruMap r -> (length (lru_list r) < capacity r)%nat ->
     Unpin f r =
     Returns (tt, mk (capacity r) (f :: lru_list r) ({[ f ]} ∪ lruMap r) false)) /\
  (forall f1 f2 f3,
     lru_list r = [] -> lruMap r = ∅ -> (3 <= capacity r)%nat ->
     f1 ≠ f2 -> f1 ≠ f3 -> f2 ≠ f3 ->
     exists r',
       (Unpin f1 ;; Unpin f2 ;; Unpin f3 ;;
        v1 <- Victim ;; v2 <- Victim ;; v3 <- Victim ;; ret (v1, v2, v3)) r
       = Returns ((Some f1, Some f2, Some f3), r') /\ lru_list r' = []).
Proof.
  intros Hl. split; [|split; [|split]].
  - split.
    + intros [r' Hv]. destruct (lru_list r) as [|x l] eqn:He using rev_ind;
        [reflexivity|].
      rewrite (victim_back r l x Hl He) in Hv. discriminate.
    + intros He. eexists. now apply victim_empty.
  - intros l f He. now apply victim_back.
  - intros f Hf Hc. now apply unpin_fresh.
  - intros f1 f2 f3 He Hm Hc H12 H13 H23.
    destruct (lru_order_general r [f1; f2; f3] Hl He Hm) as (r' & Hrun & Hlist).
    { apply NoDup_cons_2; [|apply NoDup_cons_2; [|apply NoDup_singleton]];
        rewrite ?elem_of_cons, ?elem_of_nil; intuition congruence. }
    { cbn. lia. }
    exists r'. split; [|exact Hlist].
    revert Hrun. cbn [unpin_all victims length]. unfold bind, ret.
    repeat match goal with
           | |- context [match ?m ?s with _ => _ end] =>
               lazymatch m with
               | Unpin _ => destruct (m s) as [[[] ?]| |]
               | Victim => destruct (m s) as [[? ?]| |]
               end; try discriminate
           end.
    intros [= -> -> -> ->]. reflexivity.
Qed.

(** At the input: capacity 3, frames 0, 1, 2. *)
Lemma victim_least_recently_unpinned_witness :
  exists r',
    (Unpin 0 ;; Unpin 1 ;; Unpin 2 ;;
     v1 <- Victim ;; v2 <- Victim ;; v3 <- Victim ;; ret (v1, v2, v3))
      (LRUReplacer.init 3)
    = Returns ((Some 0, Some 1, Some 2), r') /\ lru_list r' = [].
Proof.
  apply (victim_least_recently_unpinned (LRUReplacer.init 3) eq_refl);
    cbn; (reflexivity || lia).
Defined.

(** *** Pin, and what the three methods keep *)

Lemma set_latch_id r : latch r = false -> set_latch false (set_latch true r) = r.
Proof. intros Hl. destruct r. simpl in *. now subst. Qed.

Lemma filter_absent (f : Z) (l : list Z) :
  f ∉ l -> filter (fun y => y ≠ f) l = l.
Proof.
  induction l as [|x l IH]; intros Hf; [reflexivity|].
  apply not_elem_of_cons in Hf as [Hne Hf].
  rewrite filter_cons_True by congruence. now rewrite IH.
Qed.

(** [Pin] with a free latch, whatever the state of the containers. *)
Lemma pin_runs r f :
  latch r = false ->
  Pin f r =
  Returns (tt, if decide (f ∈ lruMap r)
               then mk (capacity r) (filter (fun y => y ≠ f) (lru_list r))
                       (lruMap r ∖ {[ f ]}) false
               else r).
Proof.
  intros Hl. run_replacer. rewrite Hl. simpl.
  destruct (decide (f ∈ lruMap r)); [reflexivity|].
  simpl. f_equal. f_equal. destruct r. simpl in *. now subst.
Qed.

(** The state [Pin] leaves is consistent if the one it found was. *)
Lemma pin_keeps_ok r f :
  replacer_ok r ->
  replacer_ok (if decide (f ∈ lruMap r)
               then mk (capacity r) (filter (fun y => y ≠ f) (lru_list r))
                       (lruMap r ∖ {[ f ]}) false
               else r).
Proof.
  intros (Hnd & Hsame & Hcap).
  destruct (decide (f ∈ lruMap r)); [|exact (conj Hnd (conj Hsame Hcap))].
  split; [|split]; simpl.
  - now apply NoDup_filter.
  - intros x. rewrite elem_of_difference, elem_of_singleton, list_elem_of_filter.
    rewrite Hsame. tauto.
  - etransitivity; [apply length_filter|exact Hcap].
Qed.

(** X4.  [Pin] makes a frame ineligible: on a consistent replacer with a free
    latch it returns, the frame is afterwards in neither container, the
    other frames keep their places, and a frame that was not tracked costs
    nothing. *)
Theorem pin_forgets_frame r f :
  latch r = false -> replacer_ok r ->
  exists r', Pin f r = Returns (tt, r') /\
    latch r' = false /\ capacity r' = capacity r /\
    (f ∉ lru_list r') /\ (f ∉ lruMap r') /\
    lru_list r' = filter (fun y => y ≠ f) (lru_list r) /\
    (f ∉ lruMap r -> r' = r) /\
    replacer_ok r'.
Proof.
  intros Hl (Hnd & Hsame & Hcap). rewrite (pin_runs r f Hl).
  destruct (decide (f ∈ lruMap r)) as [Hin|Hnin].
  - eexists. split; [reflexivity|]. simpl.
    split; [reflexivity|]. split; [reflexivity|].
    split. { rewrite list_elem_of_filter. intros [Hne _]. now apply Hne. }
    split. { rewrite elem_of_difference, elem_of_singleton. intros [_ Hne]. now apply Hne. }
    split; [reflexivity|]. split; [contradiction|].
    pose proof (pin_keeps_ok r f (conj Hnd (conj Hsame Hcap))) as Hok'.
    destruct (decide (f ∈ lruMap r)); [exact Hok'|contradiction].
  - exists r. split; [reflexivity|]. split; [exact Hl|]. split; [reflexivity|].
    assert (Hnl : f ∉ lru_list r) by (now rewrite <- Hsame).
    split; [exact Hnl|]. split; [exact Hnin|].
    split; [now rewrite filter_absent|]. split; [reflexivity|].
    exact (conj Hnd (conj Hsame Hcap)).
Qed.

(** [Unpin] with a free latch, on a frame that is not tracked and a list
    that is at capacity and ends in [x]: [x] makes room. *)
Lemma unpin_full r f l x :
  latch r = false -> f ∉ lruMap r -> lru_list r = l ++ [x] ->
  (capacity r <= length (lru_list r))%nat ->
  Unpin f r =
  Returns (tt, mk (capacity r) (f :: l) ({[ f ]} ∪ lruMap r ∖ {[ x ]}) false).
Proof.
  intros Hl Hf He Hc. run_replacer. rewrite Hl. simpl.
  destruct (decide (f ∈ lruMap r)) as [Hin|_]; [contradiction|].
  destruct (Nat.leb_spec (capacity r) (length (lru_list r))); [|lia].
  simpl. rewrite He, last_snoc. simpl. now rewrite removelast_last.
Qed.

(** X6.  The capacity check of [Unpin] (lines 58-62): asked to track one frame
    more than [capacity], the replacer drops the frame unpinned longest ago
    and tracks the new one at the front; a replacer of capacity 0 asked to
    track its first frame calls [back()] on an empty list. *)
Theorem unpin_beyond_capacity r f :
  latch r = false -> f ∉ lruMap r ->
  (capacity r <= length (lru_list r))%nat ->
  (forall l x, lru_list r = l ++ [x] ->
     Unpin f r =
     Returns (tt, mk (capacity r) (f :: l) ({[ f ]} ∪ lruMap r ∖ {[ x ]}) false)) /\
  (lru_list r = [] -> Unpin f r = Undefined).
Proof.
  intros Hl Hf Hc. split.
  - intros l x He. now apply unpin_full.
  - intros He. run_replacer. rewrite Hl. simpl.
    destruct (decide (f ∈ lruMap r)) as [Hin|_]; [contradiction|].
    destruct (Nat.leb_spec (capacity r) (length (lru_list r))); [|lia].
    simpl. now rewrite He.
Qed.

(** The state [Unpin] leaves when it drops the back of the list. *)
Lemma unpin_full_ok r f l x :
  replacer_ok r -> f ∉ lruMap r -> lru_list r = l ++ [x] ->
  replacer_ok (mk (capacity r) (f :: l) ({[ f ]} ∪ lruMap r ∖ {[ x ]}) false).
Proof.
  intros (Hnd & Hsame & Hcap) Hnin He.
  assert (Hnl : f ∉ lru_list r) by (now rewrite <- Hsame).
  rewrite He in Hnd, Hnl, Hcap. rewrite length_app in Hcap. simpl in Hcap.
  apply NoDup_app in Hnd as (Hndl & Hdisj & _).
  rewrite not_elem_of_app in Hnl. destruct Hnl as [Hnl _].
  split; [|split]; simpl.
  - apply NoDup_cons. now split.
  - intros y. rewrite elem_of_union, elem_of_singleton, elem_of_difference,
      elem_of_singleton, elem_of_cons, Hsame, He, elem_of_app,
      list_elem_of_singleton.
    split; [intros [?|[[?|?] ?]]; auto; contradiction|].
    intros [?|Hy]; [now left|right].
    split; [now left|]. intros ->. apply (Hdisj x Hy). now left.
  - lia.
Qed.

(** The state [Unpin] leaves when there is room. *)
Lemma unpin_fresh_ok r f :
  replacer_ok r -> f ∉ lruMap r -> (length (lru_list r) < capacity r)%nat ->
  replacer_ok (mk (capacity r) (f :: lru_list r) ({[ f ]} ∪ lruMap r) false).
Proof.
  intros (Hnd & Hsame & Hcap) Hnin Hroom.
  assert (Hnl : f ∉ lru_list r) by (now rewrite <- Hsame).
  split; [|split]; simpl.
  - apply NoDup_cons. now split.
  - intros y. rewrite elem_of_union, elem_of_singleton, elem_of_cons, Hsame.
    tauto.
  - lia.
Qed.

(** The state a successful [Victim] leaves. *)
Lemma victim_back_ok r l x :
  replacer_ok r -> lru_list r = l ++ [x] ->
  replacer_ok (mk (capacity r) l (lruMap r ∖ {[ x ]}) false).
Proof.
  intros (Hnd & Hsame & Hcap) He. rewrite He in Hnd, Hcap.
  apply NoDup_app in Hnd as (Hndl & Hdisj & _).
  rewrite length_app in Hcap. simpl in Hcap.
  split; [exact Hndl|]. split; simpl; [|lia].
  intros y. rewrite elem_of_difference, elem_of_singleton, Hsame, He,
    elem_of_app, list_elem_of_singleton.
  split; [intros [[?|?] ?]; auto; contradiction|].
  intros Hy. split; [now left|]. intros ->. apply (Hdisj x Hy). now left.
Qed.

(** Whenever one of the three methods returns, it leaves a consistent
    replacer of the same capacity. *)
Lemma pin_returns_ok r f u r' :
  replacer_ok r -> Pin f r = Returns (u, r') ->
  replacer_ok r' /\ capacity r' = capacity r.
Proof.
  intros Hok. destruct (latch r) eqn:Hl.
  { run_replacer. now rewrite Hl. }
  rewrite (pin_runs r f Hl). intros [= _ <-].
  split; [now apply pin_keeps_ok|]. now destruct (decide _).
Qed.

Lemma unpin_returns_ok r f u r' :
  replacer_ok r -> Unpin f r = Returns (u, r') ->
  replacer_ok r' /\ capacity r' = capacity r.
Proof.
  intros Hok. destruct (latch r) eqn:Hl.
  { run_replacer. now rewrite Hl. }
  destruct (decide (f ∈ lruMap r)) as [Hin|Hnin].
  { run_replacer. rewrite Hl. simpl.
    destruct (decide (f ∈ lruMap r)); [|contradiction].
    intros [= _ <-]. now split. }
  destruct (Nat.le_gt_cases (capacity r) (length (lru_list r))) as [Hfull|Hroom].
  - destruct (lru_list r) as [|x l _] eqn:He using rev_ind.
    + run_replacer. rewrite Hl. simpl.
      destruct (decide (f ∈ lruMap r)); [contradiction|].
      destruct (Nat.leb_spec (capacity r) (length (lru_list r)));
        [|rewrite He in *; simpl in *; lia].
      simpl. now rewrite He.
    + rewrite <- He in Hfull. rewrite (unpin_full r f l x Hl Hnin He Hfull).
      intros [= _ <-]. split; [now apply unpin_full_ok|reflexivity].
  - rewrite (unpin_fresh r f Hl Hnin Hroom). intros [= _ <-].
    split; [now apply unpin_fresh_ok|reflexivity].
Qed.

Lemma victim_returns_ok r o r' :
  replacer_ok r -> Victim r = Returns (o, r') ->
  replacer_ok r' /\ capacity r' = capacity r.
Proof.
  intros Hok. destruct (latch r) eqn:Hl.
  { now rewrite (victim_held r Hl). }
  destruct (lru_list r) as [|x l _] eqn:He using rev_ind.
  - rewrite (victim_empty r Hl He). intros [= _ <-]. now split.
  - rewrite (victim_back r l x Hl He). intros [= _ <-].
    split; [now apply victim_back_ok|reflexivity].
Qed.

Lemma init_ok n : replacer_ok (init n).
Proof.
  split; [apply NoDup_nil_2|]. split; [|simpl; lia].
  intros x. simpl. rewrite elem_of_nil. split; [|tauto].
  apply not_elem_of_empty.
Qed.

(** X5.  The three methods keep the replacer consistent and within capacity, and
    (a failed [Victim] apart) leave the latch free, so that they can be
    called again; [Size] is then the number of tracked frames and never
    exceeds [capacity]. *)
Theorem replacer_ok_kept r f :
  latch r = false -> replacer_ok r ->
  (exists r', Pin f r = Returns (tt, r') /\
     replacer_ok r' /\ latch r' = false /\ capacity r' = capacity r) /\
  ((0 < capacity r)%nat ->
   exists r', Unpin f r = Returns (tt, r') /\
     replacer_ok r' /\ latch r' = false /\ capacity r' = capacity r) /\
  (exists o r', Victim r = Returns (o, r') /\
     replacer_ok r' /\ capacity r' = capacity r /\
     (latch r' = false <-> o ≠ None)) /\
  Size r = size (lruMap r) /\ (Size r <= capacity r)%nat.
Proof.
  intros Hl Hok. pose proof Hok as (Hnd & Hsame & Hcap).
  split; [|split; [|split; [|split]]].
  - eexists. split; [apply (pin_runs r f Hl)|].
    split; [now apply pin_keeps_ok|].
    destruct (decide (f ∈ lruMap r)); now split.
  - intros Hpos.
    destruct (unpin_tracks r f Hl Hpos) as (r' & Hrun & _ & Hl' & _).
    destruct (unpin_returns_ok r f _ r' Hok Hrun) as [Hok' Hc'].
    exists r'. split; [exact Hrun|]. split; [exact Hok'|]. now split.
  - destruct (lru_list r) as [|x l _] eqn:He using rev_ind.
    + exists None, (set_latch true r). split; [now apply victim_empty|].
      split; [exact Hok|]. split; [reflexivity|].
      simpl. split; [discriminate|congruence].
    + exists (Some x). eexists. split; [apply (victim_back r l x Hl He)|].
      split; [now apply victim_back_ok|]. split; [reflexivity|].
      simpl. split; [discriminate|reflexivity].
  - unfold Size. rewrite <- (size_list_to_set (C:=gset Z) _ Hnd). f_equal.
    apply set_eq. intros y. now rewrite elem_of_list_to_set.
  - exact Hcap.
Qed.

Lemma unpin_capacity r f r' :
  Unpin f r = Returns (tt, r') -> capacity r' = capacity r.
Proof.
  run_replacer. destruct (latch r); [discriminate|]. simpl.
  destruct (decide (f ∈ lruMap r)); simpl; [now intros [= <-]|].
  destruct (capacity r <=? length (lru_list r))%nat; simpl; [|now intros [= <-]].
  destruct (last (lru_list r)); simpl; [now intros [= <-]|discriminate].
Qed.

(** X7.  Unpinning a frame twice is unpinning it once: the second call finds the
    frame tracked and moves nothing. *)
Theorem unpin_idempotent r f :
  latch r = false -> (0 < capacity r)%nat ->
  exists r', Unpin f r = Returns (tt, r') /\
             (Unpin f ;; Unpin f) r = Returns (tt, r').
Proof.
  intros Hl Hc.
  destruct (unpin_tracks r f Hl Hc) as (r' & Hrun & Hin & Hl' & _ & _).
  exists r'. split; [exact Hrun|].
  rewrite (bind_returns _ _ _ _ _ Hrun).
  assert (Hc' : (0 < capacity r')%nat).
  { now rewrite (unpin_capacity r f r' Hrun). }
  destruct (unpin_tracks r' f Hl' Hc') as (r'' & Hrun' & _ & _ & _ & Heq).
  now rewrite Hrun', (Heq Hin).
Qed.

(** X8.  [Unpin] then [Pin] of a frame that was not tracked is a round trip: a
    consistent replacer with room for the frame is back where it was. *)
Theorem unpin_pin_round_trip r f :
  latch r = false -> replacer_ok r -> f ∉ lruMap r ->
  (length (lru_list r) < capacity r)%nat ->
  (Unpin f ;; Pin f) r = Returns (tt, r).
Proof.
  intros Hl (Hnd & Hsame & _) Hf Hroom.
  rewrite (bind_returns _ _ _ _ _ (unpin_fresh r f Hl Hf Hroom)).
  rewrite pin_runs by reflexivity. simpl.
  destruct (decide (f ∈ {[ f ]} ∪ lruMap r)) as [_|Hn].
  2:{ destruct Hn. apply elem_of_union_l. now apply elem_of_singleton. }
  f_equal. f_equal. destruct r as [c l m b]. simpl in *. subst b.
  f_equal.
  - rewrite filter_cons_False by (intros Hne; now apply Hne).
    apply filter_absent. now rewrite <- Hsame.
  - apply set_eq. intros y.
    rewrite elem_of_difference, elem_of_union, elem_of_singleton.
    split; [intros [[?|?] ?]; auto; contradiction|].
    intros Hy. split; [now right|]. intros ->. contradiction.
Qed.

(** X10.  Once [Victim] has returned false, every method of the replacer waits for
    ever: the latch it took is never given back (lines 28-31). *)
Theorem failed_victim_blocks_replacer r r' f :
  Victim r = Returns (None, r') ->
  Victim r' = Blocks /\ Pin f r' = Blocks /\ Unpin f r' = Blocks.
Proof.
  intros Hv.
  assert (Hheld : latch r' = true).
  { revert Hv. run_replacer. destruct (latch r); [discriminate|]. simpl.
    repeat case_match; intros [= <-] || discriminate. reflexivity. }
  run_replacer. now rewrite Hheld.
Qed.

(** X9.  Touching a tracked frame, [Pin] then [Unpin], sends it to the front of
    the list, the far end from the next victim; the other frames keep their
    order and the set of tracked frames is the same. *)
Theorem pin_unpin_moves_to_front r f :
  latch r = false -> replacer_ok r -> f ∈ lruMap r ->
  exists r', (Pin f ;; Unpin f) r = Returns (tt, r') /\
    lru_list r' = f :: filter (fun y => y ≠ f) (lru_list r) /\
    lruMap r' = lruMap r /\ capacity r' = capacity r /\ latch r' = false.
Proof.
  intros Hl (Hnd & Hsame & Hcap) Hin.
  rewrite (bind_returns _ _ _ _ _ (pin_runs r f Hl)).
  destruct (decide (f ∈ lruMap r)) as [_|Hn]; [|contradiction].
  assert (Hshort : (length (filter (fun y => y ≠ f) (lru_list r))
                    < length (lru_list r))%nat).
  { apply Hsame in Hin. clear -Hin. induction (lru_list r) as [|x l IH].
    - now apply elem_of_nil in Hin.
    - destruct (decide (x = f)) as [->|Hne].
      + rewrite filter_cons_False by (intros Hne; now apply Hne). simpl.
        pose proof (length_filter (fun y => y ≠ f) l). lia.
      + rewrite filter_cons_True by exact Hne. simpl.
        apply elem_of_cons in Hin as [Heq|Hin]; [congruence|].
        specialize (IH Hin). lia. }
  eexists. split.
  { apply unpin_fresh; simpl; [reflexivity| |lia].
    rewrite elem_of_difference, elem_of_singleton. tauto. }
  simpl. split; [reflexivity|]. split; [|now split].
  apply set_eq. intros y.
  rewrite elem_of_union, elem_of_singleton, elem_of_difference, elem_of_singleton.
  split; [intros [->|[? _]]; assumption|].
  intros Hy. destruct (decide (y = f)); [now left|now right].
Qed.

End Replacer.

(** ** The manager *)

Section Manager.
Context `{Config}.
Open Scope monad_scope.

Lemma page_ref_ok (s : t) frame_id p :
  0 <= frame_id -> pages_ s !! Z.to_nat frame_id = Some p ->
  page_ref frame_id s = Returns (Z.to_nat frame_id, s).
Proof.
  intros Hnn Hp. apply lookup_lt_Some in Hp. unfold page_ref, pool_size_.
  destruct (decide _) as [_|Hn]; [reflexivity|lia].
Qed.

Lemma deref_ok (s : t) i p :
  pages_ s !! i = Some p -> deref i s = Returns (p, s).
Proof. intros Hp. unfold deref. now rewrite Hp. Qed.

(** *** UnpinPageImpl and DeletePageImpl *)

(** C10. A call of [UnpinPageImpl] or of [DeletePageImpl] that returns false
    returns the state it was given: page table, free list, replacer, every
    field of every frame, the disk and the list of effects issued (so no
    call on the Disk Manager was made).  [UnpinPageImpl] returns false on a
    page that is absent or whose pin count is zero, [DeletePageImpl] on a
    resident page whose pin count is not zero. *)
Theorem failed_unpin_delete_change_nothing
        (s : t) (page_id : page_id_t) (is_dirty : bool) :
  (forall s', UnpinPageImpl page_id is_dirty s = Returns (false, s') -> s' = s) /\
  (forall s', DeletePageImpl page_id s = Returns (false, s') -> s' = s) /\
  (page_table_ s !! page_id = None ->
   UnpinPageImpl page_id is_dirty s = Returns (false, s)) /\
  (forall frame_id p,
     page_table_ s !! page_id = Some frame_id ->
     0 <= frame_id -> pages_ s !! Z.to_nat frame_id = Some p ->
     (pin_count_ p = 0 ->
      UnpinPageImpl page_id is_dirty s = Returns (false, s)) /\
     (pin_count_ p ≠ 0 ->
      DeletePageImpl page_id s = Returns (false, s))).
Proof.
  split; [|split; [|split]].
  - intros s'. unfold UnpinPageImpl, bind, get, ret, page_ref, deref.
    destruct (page_table_ s !! page_id) as [frame_id|]; [|congruence].
    destruct (decide _); [|discriminate].
    destruct (pages_ s !! Z.to_nat frame_id) as [p|]; [|discriminate].
    destruct (decide (pin_count_ p = 0)); [congruence|].
    intros E. repeat case_match; discriminate.
  - intros s'. unfold DeletePageImpl, bind, get, ret, page_ref, deref.
    destruct (page_table_ s !! page_id) as [frame_id|]; [|discriminate].
    destruct (decide _); [|discriminate].
    destruct (pages_ s !! Z.to_nat frame_id) as [p|]; [|discriminate].
    destruct (decide (pin_count_ p ≠ 0)); [congruence|].
    intros E. repeat case_match; discriminate.
  - intros Hnone. unfold UnpinPageImpl, bind, get. now rewrite Hnone.
  - intros frame_id p Htab Hnn Hp. split.
    + intros Hzero. unfold UnpinPageImpl, bind, get. rewrite Htab.
      rewrite (page_ref_ok s frame_id p Hnn Hp), (deref_ok s _ p Hp).
      destruct (decide (pin_count_ p = 0)); [reflexivity|contradiction].
    + intros Hpinned. unfold DeletePageImpl, bind, get. rewrite Htab.
      rewrite (page_ref_ok s frame_id p Hnn Hp), (deref_ok s _ p Hp).
      destruct (decide (pin_count_ p ≠ 0)); [reflexivity|contradiction].
Qed.

(** X21.  [UnpinPageImpl] returns false, changing nothing, if the page is
    not in the page table or the pin count of its frame is 0.  Otherwise,
    provided the pin count is an [int] that is not the least one and
    provided, when the pin count is 1, that the replacer's latch is free
    and its capacity is not 0, it returns true, the pin count is one less,
    the dirty bit is set if the flag is true and keeps its value if not,
    and no other frame, nor the page table, the free list or the disk,
    changes.  The replacer is called exactly when the new pin count is 0:
    the frame is then tracked, at the front if it was not tracked before;
    when the new pin count is not 0 the replacer is as it was. *)
Theorem unpin_page_spec (s : t) (page_id : page_id_t) (is_dirty : bool) :
  (page_table_ s !! page_id = None ->
   UnpinPageImpl page_id is_dirty s = Returns (false, s)) /\
  (forall frame_id p,
     page_table_ s !! page_id = Some frame_id ->
     0 <= frame_id -> pages_ s !! Z.to_nat frame_id = Some p ->
     (pin_count_ p = 0 ->
      UnpinPageImpl page_id is_dirty s = Returns (false, s)) /\
     (pin_count_ p ≠ 0 -> - 2 ^ 31 < pin_count_ p < 2 ^ 31 ->
      (pin_count_ p = 1 ->
       LRUReplacer.latch (replacer_ s) = false /\
       (0 < LRUReplacer.capacity (replacer_ s))%nat) ->
      exists s',
        UnpinPageImpl page_id is_dirty s = Returns (true, s') /\
        pages_ s' !! Z.to_nat frame_id =
          Some {| data_ := data_ p; page_id_ := page_id_ p;
                  pin_count_ := pin_count_ p - 1;
                  is_dirty_ := is_dirty_ p || is_dirty |} /\
        (forall j, j ≠ Z.to_nat frame_id -> pages_ s' !! j = pages_ s !! j) /\
        (pin_count_ p = 1 ->
         frame_id ∈ LRUReplacer.lruMap (replacer_ s') /\
         (frame_id ∉ LRUReplacer.lruMap (replacer_ s) ->
          head (LRUReplacer.lru_list (replacer_ s')) = Some frame_id)) /\
        (pin_count_ p ≠ 1 -> replacer_ s' = replacer_ s) /\
        page_table_ s' = page_table_ s /\ free_list_ s' = free_list_ s /\
        disk_manager_ s' = disk_manager_ s /\ history s' = history s)).
Proof.
  split.
  - intros Hnone. unfold UnpinPageImpl, bind, get. now rewrite Hnone.
  - intros frame_id p Htab Hnn Hp. split.
    + intros Hzero. unfold UnpinPageImpl, bind, get. rewrite Htab.
      rewrite (page_ref_ok s frame_id p Hnn Hp), (deref_ok s _ p Hp).
      destruct (decide (pin_count_ p = 0)); [reflexivity|contradiction].
    + intros Hnz Hpin Hrep. unfold UnpinPageImpl, bind, get. rewrite Htab.
      rewrite (page_ref_ok s frame_id p Hnn Hp), (deref_ok s _ p Hp).
      destruct (decide (pin_count_ p = 0)) as [Hz|_]; [contradiction|].
      unfold update_page at 1, modify.
      set (p1 := set_pin_count (int32_wrap (pin_count_ p - 1)) p).
      set (s1 := set_pages _ s).
      assert (Hp1 : pages_ s1 !! Z.to_nat frame_id = Some p1).
      { unfold s1. simpl. rewrite list_lookup_alter_eq, Hp. reflexivity. }
      rewrite (deref_ok s1 _ p1 Hp1).
      assert (Hcnt : pin_count_ p1 = pin_count_ p - 1).
      { unfold p1. simpl. apply int32_wrap_small. lia. }
      assert (Hstep : exists r',
                 (if decide (pin_count_ p1 = 0)
                  then on_replacer (LRUReplacer.Unpin frame_id)
                  else ret ()) s1 = Returns (tt, set_replacer r' s1) /\
                 (pin_count_ p = 1 ->
                  frame_id ∈ LRUReplacer.lruMap r' /\
                  (frame_id ∉ LRUReplacer.lruMap (replacer_ s) ->
                   head (LRUReplacer.lru_list r') = Some frame_id)) /\
                 (pin_count_ p ≠ 1 -> r' = replacer_ s)).
      { destruct (decide (pin_count_ p1 = 0)) as [Hz|Hnz1].
        - destruct (Hrep ltac:(lia)) as [Hl Hc].
          destruct (unpin_tracks (replacer_ s) frame_id Hl Hc)
            as (r' & Hu & Hin & _ & Hfront & _).
          exists r'. unfold on_replacer. simpl. rewrite Hu.
          split; [reflexivity|]. split; [auto|intros; lia].
        - exists (replacer_ s). split; [reflexivity|]. split; [lia|auto]. }
      destruct Hstep as (r' & -> & Hone & Hother).
      unfold p1 in Hcnt. simpl in Hcnt.
      destruct is_dirty; eexists; (split; [reflexivity|]); simpl;
        rewrite ?list_lookup_alter_eq, Hp; simpl; rewrite Hcnt;
        rewrite ?orb_true_r, ?orb_false_r;
        (split; [reflexivity|]);
        (split; [intros j Hj; now rewrite ?list_lookup_alter_ne by auto|]);
        (split; [exact Hone|]); (split; [exact Hother|]); repeat split.
Qed.

(** *** FlushAllPagesImpl *)

Lemma flush_frame_step (s : t) i p :
  pages_ s !! i = Some p ->
  exists s', flush_frame i s = Returns (tt, s') /\
    history s' = history s ++ map write_event (List.filter needs_flush [p]) /\
    pages_ s' = <[i := flushed p]> (pages_ s) /\
    page_table_ s' = page_table_ s /\ free_list_ s' = free_list_ s /\
    replacer_ s' = replacer_ s /\
    disk_manager_ s' =
      fold_left write_back (List.filter needs_flush [p]) (disk_manager_ s).
Proof.
  intros Hp. unfold flush_frame, bind. rewrite (deref_ok s i p Hp).
  unfold flushed, IsDirty. simpl. fold (needs_flush p).
  destruct (needs_flush p) eqn:En.
  - eexists. split; [reflexivity|]. simpl. repeat split.
    rewrite list_insert_alter. apply list_alter_ext; [|reflexivity].
    intros q Hq. congruence.
  - exists s. split; [reflexivity|]. simpl. rewrite app_nil_r.
    repeat split. symmetry. now apply list_insert_id.
Qed.

(** The loop from index [i] on: the frames below [i] are left alone, those
    from [i] on are written where needed, in index order. *)
Lemma flush_loop_spec n : forall i (s : t),
  (i + n = pool_size_ s)%nat ->
  exists s', flush_loop n i s = Returns (tt, s') /\
    history s' =
      history s ++ map write_event (List.filter needs_flush (drop i (pages_ s))) /\
    pages_ s' = take i (pages_ s) ++ map flushed (drop i (pages_ s)) /\
    page_table_ s' = page_table_ s /\ free_list_ s' = free_list_ s /\
    replacer_ s' = replacer_ s /\
    disk_manager_ s' =
      fold_left write_back (List.filter needs_flush (drop i (pages_ s)))
                (disk_manager_ s).
Proof.
  unfold pool_size_.
  induction n as [|n IH]; intros i s Hlen.
  - exists s. split; [reflexivity|].
    rewrite drop_ge, take_ge by lia. simpl. rewrite !app_nil_r. repeat split.
  - destruct (lookup_lt_is_Some_2 (pages_ s) i ltac:(lia)) as [p Hp].
    destruct (flush_frame_step s i p Hp)
      as (s1 & Hrun1 & Hh1 & Hp1 & Ht1 & Hf1 & Hr1 & Hd1).
    destruct (IH (S i) s1) as (s2 & Hrun2 & Hh2 & Hp2 & Ht2 & Hf2 & Hr2 & Hd2).
    { rewrite Hp1, length_insert. lia. }
    exists s2. split.
    { simpl. now rewrite (bind_returns _ _ _ _ _ Hrun1). }
    assert (Hdrop : drop (S i) (pages_ s1) = drop (S i) (pages_ s)).
    { rewrite Hp1. apply drop_insert_lt. lia. }
    assert (Htake : take (S i) (pages_ s1) = take i (pages_ s) ++ [flushed p]).
    { rewrite (take_S_r _ _ (flushed p)).
      - rewrite Hp1, take_insert_ge by lia. reflexivity.
      - rewrite Hp1. apply list_lookup_insert_eq. now apply lookup_lt_Some in Hp. }
    rewrite (drop_S _ _ _ Hp).
    rewrite Hh2, Hp2, Ht2, Hf2, Hr2, Hd2, Hdrop, Htake, Hh1, Hd1.
    change (p :: drop (S i) (pages_ s)) with ([p] ++ drop (S i) (pages_ s)).
    rewrite List.filter_app, !map_app, fold_left_app, <- !app_assoc.
    repeat split; assumption.
Qed.

(** The loop never reads the page table: with another table in place it
    does the same and hands that table back. *)
Lemma flush_loop_table n : forall i (s : t) tbl,
  flush_loop n i (set_page_table tbl s) =
  match flush_loop n i s with
  | Returns (u, s') => Returns (u, set_page_table tbl s')
  | Blocks => Blocks
  | Undefined => Undefined
  end.
Proof.
  induction n as [|n IH]; intros i s tbl; [reflexivity|].
  simpl. unfold bind.
  assert (Hframe : flush_frame i (set_page_table tbl s) =
                   match flush_frame i s with
                   | Returns (u, s') => Returns (u, set_page_table tbl s')
                   | Blocks => Blocks
                   | Undefined => Undefined
                   end).
  { unfold flush_frame, bind, deref. simpl.
    destruct (pages_ s !! i) as [p|]; [|reflexivity].
    destruct (negb (page_id_ p =? INVALID_PAGE_ID) && IsDirty p); reflexivity. }
  rewrite Hframe. destruct (flush_frame i s) as [[[] s1]| |]; try reflexivity.
  apply IH.
Qed.

(** C6. [FlushAllPagesImpl] returns; going through the frames by index, it
    issued one [WritePage] for each frame that holds a page and is dirty, at
    that frame's page id and with that frame's bytes, and none for any other
    frame; it cleared the dirty bit of exactly the frames it wrote; it left
    page table, free list and replacer alone; and it looked nothing up by
    page id: whatever the page table holds, it does the same. *)
Theorem flush_all_writes_dirty_frames (s : t) :
  exists s', FlushAllPagesImpl s = Returns (tt, s') /\
    history s' =
      history s ++ map write_event (List.filter needs_flush (pages_ s)) /\
    pages_ s' = map flushed (pages_ s) /\
    page_table_ s' = page_table_ s /\ free_list_ s' = free_list_ s /\
    replacer_ s' = replacer_ s /\
    disk_manager_ s' =
      fold_left write_back (List.filter needs_flush (pages_ s)) (disk_manager_ s) /\
    (forall tbl, FlushAllPagesImpl (set_page_table tbl s) =
                 Returns (tt, set_page_table tbl s')).
Proof.
  destruct (flush_loop_spec (pool_size_ s) 0 s eq_refl)
    as (s' & Hrun & Hh & Hp & Ht & Hf & Hr & Hd).
  exists s'. repeat (split; [assumption|]).
  intros tbl. unfold FlushAllPagesImpl, bind, get.
  change (pool_size_ (set_page_table tbl s)) with (pool_size_ s).
  now rewrite flush_loop_table, Hrun.
Qed.

(** *** Taking a frame *)

Lemma find_replacement_cases (s : t) :
  LRUReplacer.latch (replacer_ s) = false ->
  (free_list_ s = [] /\ LRUReplacer.lru_list (replacer_ s) = [] /\
   find_replacement s = Returns (None, latch_held s)) \/
  (exists f s1, (free_list_ s ≠ [] \/ LRUReplacer.lru_list (replacer_ s) ≠ []) /\
                find_replacement s = Returns (Some f, s1)).
Proof.
  intros Hl. unfold find_replacement, bind, get.
  destruct (free_list_ s) as [|f rest] eqn:Ef.
  - unfold on_replacer.
    destruct (LRUReplacer.lru_list (replacer_ s)) as [|x l] eqn:El using rev_ind.
    + left. rewrite (victim_empty _ Hl El). now repeat split.
    + right. rewrite (victim_back _ l x Hl El). do 2 eexists.
      split; [|reflexivity]. right. now destruct l.
  - right. do 2 eexists. split; [|reflexivity]. now left.
Qed.

(** X1.  While the replacer's latch is free, [NewPageImpl], and [FetchPageImpl]
    of a page that is not resident, return none exactly when the free list
    and the replacer are both empty, and then log no effect and change no
    frame, list or table: only the replacer's latch, now held, differs. *)
Theorem exhaustion_with_free_latch (s : t) (page_id : page_id_t) :
  LRUReplacer.latch (replacer_ s) = false ->
  ((exists s', NewPageImpl s = Returns (None, s')) <->
   free_list_ s = [] /\ LRUReplacer.lru_list (replacer_ s) = []) /\
  (page_table_ s !! page_id = None ->
   ((exists s', FetchPageImpl page_id s = Returns (None, s')) <->
    free_list_ s = [] /\ LRUReplacer.lru_list (replacer_ s) = [])) /\
  (free_list_ s = [] -> LRUReplacer.lru_list (replacer_ s) = [] ->
   NewPageImpl s = Returns (None, latch_held s) /\
   (page_table_ s !! page_id = None ->
    FetchPageImpl page_id s = Returns (None, latch_held s))).
Proof.
  intros Hl.
  destruct (find_replacement_cases s Hl)
    as [(Hf & Hr & Hfind)|(f & s1 & Hne & Hfind)].
  - assert (Hnew : NewPageImpl s = Returns (None, latch_held s)).
    { unfold NewPageImpl. now rewrite (bind_returns _ _ _ _ _ Hfind). }
    assert (Hfetch : page_table_ s !! page_id = None ->
                     FetchPageImpl page_id s = Returns (None, latch_held s)).
    { intros Hnone. unfold FetchPageImpl, bind at 1, get. rewrite Hnone.
      now rewrite (bind_returns _ _ _ _ _ Hfind). }
    split; [|split].
    + split; [auto|]. intros _. eexists. exact Hnew.
    + intros Hnone. split; [auto|]. intros _. eexists. exact (Hfetch Hnone).
    + auto.
  - assert (Hnew : forall s', NewPageImpl s ≠ Returns (None, s')).
    { intros s'. unfold NewPageImpl. rewrite (bind_returns _ _ _ _ _ Hfind).
      unfold bind, ret. repeat case_match; discriminate. }
    assert (Hfetch : page_table_ s !! page_id = None ->
                     forall s', FetchPageImpl page_id s ≠ Returns (None, s')).
    { intros Hnone s'. unfold FetchPageImpl, bind at 1, get. rewrite Hnone.
      rewrite (bind_returns _ _ _ _ _ Hfind).
      unfold bind, ret. repeat case_match; discriminate. }
    assert (Hnot : ~ (free_list_ s = [] /\ LRUReplacer.lru_list (replacer_ s) = [])).
    { intros [? ?]. destruct Hne; contradiction. }
    split; [|split].
    + split; [intros [s' E]; now destruct (Hnew s')|intros; contradiction].
    + intros Hnone.
      split; [intros [s' E]; now destruct (Hfetch Hnone s')|intros; contradiction].
    + intros Hf Hr. destruct Hnot. now split.
Qed.

(** *** FlushPageImpl *)

(** X2.  [FlushPageImpl] of a page that is not resident returns false and changes
    nothing; of a resident page, whatever its pin count, it writes the
    frame's bytes at that page id and returns true.  No frame changes: the
    dirty bit stays as it was. *)
Theorem flush_page_writes_and_keeps_frames (s : t) (page_id : page_id_t) :
  (page_table_ s !! page_id = None ->
   FlushPageImpl page_id s = Returns (false, s)) /\
  (forall frame_id p,
     page_table_ s !! page_id = Some frame_id ->
     0 <= frame_id -> pages_ s !! Z.to_nat frame_id = Some p ->
     exists s', FlushPageImpl page_id s = Returns (true, s') /\
       history s' = history s ++ [EvWritePage page_id (data_ p)] /\
       disk_manager_ s' = disk_write page_id (data_ p) (disk_manager_ s) /\
       pages_ s' = pages_ s /\ page_table_ s' = page_table_ s /\
       free_list_ s' = free_list_ s /\ replacer_ s' = replacer_ s).
Proof.
  split.
  - intros Hnone. unfold FlushPageImpl, bind, get. now rewrite Hnone.
  - intros frame_id p Htab Hnn Hp. unfold FlushPageImpl, bind, get.
    rewrite Htab, (page_ref_ok s frame_id p Hnn Hp), (deref_ok s _ p Hp).
    eexists. split; [reflexivity|]. now repeat split.
Qed.

(** *** FetchPageImpl *)

(** X3.  [FetchPageImpl] of a page that is not resident, given a dirty frame:
    the frame's bytes are written at the page id the frame held, and that
    write comes before the two updates of the page table. *)
Theorem fetch_miss_writes_back_first (s : t) (page_id : page_id_t)
        (frame_id : frame_id_t) (s1 : t) (p : Page) :
  page_table_ s !! page_id = None ->
  find_replacement s = Returns (Some frame_id, s1) ->
  0 <= frame_id -> pages_ s !! Z.to_nat frame_id = Some p ->
  is_dirty_ p = true ->
  exists s', FetchPageImpl page_id s = Returns (Some frame_id, s') /\
    history s' = history s ++
      [EvWritePage (page_id_ p) (data_ p); EvTableErase (page_id_ p);
       EvTableInsert (page_id_ p) frame_id; EvReadPage (page_id_ p)] /\
    image (disk_manager_ s') (page_id_ p) = data_ p.
Proof.
  intros Hnone Hfind Hnn Hp Hd.
  assert (Hsame : pages_ s1 = pages_ s /\ history s1 = history s).
  { revert Hfind. unfold find_replacement, bind, get, on_replacer.
    destruct (free_list_ s); [|intros [= <- <-]; now split].
    destruct (LRUReplacer.Victim (replacer_ s)) as [[o r]| |]; try discriminate.
    intros [= -> <-]. now split. }
  destruct Hsame as [Hpages Hhist].
  unfold FetchPageImpl, bind at 1, get. rewrite Hnone.
  rewrite (bind_returns _ _ _ _ _ Hfind).
  rewrite <- Hpages in Hp.
  rewrite (bind_returns _ _ _ _ _ (page_ref_ok s1 frame_id p Hnn Hp)).
  rewrite (bind_returns _ _ _ _ _ (deref_ok s1 _ p Hp)).
  unfold IsDirty. rewrite Hd.
  unfold bind, WritePage, update_page, modify, deref. simpl.
  rewrite list_lookup_alter_eq, Hp. simpl.
  eexists. split; [reflexivity|]. simpl. rewrite Hhist, <- !app_assoc. simpl.
  split; [reflexivity|]. destruct (decide _); [reflexivity|contradiction].
Qed.

(** *** The resident case of FetchPageImpl *)

Lemma alter_at {A} (g : A -> A) (l : list A) i x :
  l !! i = Some x -> alter g i l = <[i := g x]> l.
Proof.
  intros Hx. rewrite list_insert_alter. apply list_alter_ext; [|reflexivity].
  intros y Hy. congruence.
Qed.

Lemma alter_insert_at {A} (g : A -> A) (l : list A) i x :
  (i < length l)%nat -> alter g i (<[i := x]> l) = <[i := g x]> l.
Proof.
  intros Hi. rewrite (alter_at g _ i x) by now apply list_lookup_insert_eq.
  apply list_insert_insert_eq.
Qed.

Lemma on_replacer_returns {A} (m : M LRUReplacer.t A) (s : t) a r :
  m (replacer_ s) = Returns (a, r) ->
  on_replacer m s = Returns (a, set_replacer r s).
Proof. intros E. unfold on_replacer. now rewrite E. Qed.

Lemma set_replacer_id (s : t) : set_replacer (replacer_ s) s = s.
Proof. now destruct s. Qed.

(** X11.  [FetchPageImpl] of a resident page (lines 47-53) pins it and does
    nothing else: the pin count of its frame is one more, the frame is in
    the replacer no longer (the other tracked frames keep their order), and
    there is no disk call and no change to the page table, the free list or
    any other frame. *)
Theorem fetch_resident_pins (s : t) (page_id : page_id_t)
        (frame_id : frame_id_t) (p : Page) :
  page_table_ s !! page_id = Some frame_id ->
  0 <= frame_id -> pages_ s !! Z.to_nat frame_id = Some p ->
  LRUReplacer.latch (replacer_ s) = false ->
  - 2 ^ 31 <= pin_count_ p < 2 ^ 31 - 1 ->
  exists s', FetchPageImpl page_id s = Returns (Some frame_id, s') /\
    pages_ s' =
      <[Z.to_nat frame_id := set_pin_count (pin_count_ p + 1) p]> (pages_ s) /\
    (frame_id ∉ LRUReplacer.lruMap (replacer_ s')) /\
    LRUReplacer.latch (replacer_ s') = false /\
    LRUReplacer.lru_list (replacer_ s') =
      (if decide (frame_id ∈ LRUReplacer.lruMap (replacer_ s))
       then filter (fun y => y ≠ frame_id) (LRUReplacer.lru_list (replacer_ s))
       else LRUReplacer.lru_list (replacer_ s)) /\
    (frame_id ∉ LRUReplacer.lruMap (replacer_ s) -> replacer_ s' = replacer_ s) /\
    page_table_ s' = page_table_ s /\ free_list_ s' = free_list_ s /\
    disk_manager_ s' = disk_manager_ s /\ history s' = history s.
Proof.
  intros Htab Hnn Hp Hl Hpin.
  unfold FetchPageImpl, bind at 1, get. rewrite Htab.
  rewrite (bind_returns _ _ _ _ _ (page_ref_ok s frame_id p Hnn Hp)).
  rewrite (bind_returns _ _ _ _ _
             (on_replacer_returns _ s _ _ (pin_runs (replacer_ s) frame_id Hl))).
  unfold bind, update_page, modify, ret. simpl.
  eexists. split; [reflexivity|]. simpl.
  split.
  { rewrite (alter_at _ _ _ p Hp). simpl.
    now rewrite int32_wrap_small by lia. }
  destruct (decide (frame_id ∈ LRUReplacer.lruMap (replacer_ s))) as [Hin|Hnin];
    simpl.
  - split. { rewrite elem_of_difference, elem_of_singleton. tauto. }
    repeat split. contradiction.
  - repeat split; auto.
Qed.

(** X12.  Fetching a resident page that is pinned already and releasing it clean
    is a round trip while the replacer's latch is free: [FetchPageImpl] then
    [UnpinPageImpl] with a false flag return to the very state they started
    from. *)
Theorem fetch_unpin_round_trip (s : t) (page_id : page_id_t)
        (frame_id : frame_id_t) (p : Page) :
  page_table_ s !! page_id = Some frame_id ->
  0 <= frame_id -> pages_ s !! Z.to_nat frame_id = Some p ->
  LRUReplacer.latch (replacer_ s) = false ->
  frame_id ∉ LRUReplacer.lruMap (replacer_ s) ->
  0 < pin_count_ p < 2 ^ 31 - 1 ->
  (FetchPageImpl page_id ;; UnpinPageImpl page_id false) s = Returns (true, s).
Proof.
  intros Htab Hnn Hp Hl Hnin Hpin.
  pose proof (lookup_lt_Some _ _ _ Hp) as Hlt.
  unfold FetchPageImpl, bind at 1 2, get. rewrite Htab.
  rewrite (bind_returns _ _ _ _ _ (page_ref_ok s frame_id p Hnn Hp)).
  rewrite (bind_returns _ _ _ _ _
             (on_replacer_returns _ s _ _ (pin_runs (replacer_ s) frame_id Hl))).
  destruct (decide (frame_id ∈ LRUReplacer.lruMap (replacer_ s)));
    [contradiction|].
  rewrite set_replacer_id.
  unfold bind at 1, update_page at 1, modify, ret.
  rewrite (alter_at _ _ _ p Hp). simpl.
  rewrite (int32_wrap_small (pin_count_ p + 1)) by lia.
  set (p1 := set_pin_count (pin_count_ p + 1) p).
  set (s1 := set_pages _ s).
  assert (Hp1 : pages_ s1 !! Z.to_nat frame_id = Some p1).
  { unfold s1. simpl. now apply list_lookup_insert_eq. }
  unfold UnpinPageImpl, bind at 1, get.
  change (page_table_ s1) with (page_table_ s). rewrite Htab.
  rewrite (bind_returns _ _ _ _ _ (page_ref_ok s1 frame_id p1 Hnn Hp1)).
  rewrite (bind_returns _ _ _ _ _ (deref_ok s1 _ p1 Hp1)).
  destruct (decide (pin_count_ p1 = 0)) as [Hz|_]; [simpl in Hz; lia|].
  unfold bind, update_page, modify, deref, ret. simpl.
  rewrite (alter_insert_at _ _ _ _ Hlt), (list_lookup_insert_eq _ _ _ Hlt). simpl.
  rewrite (int32_wrap_small (pin_count_ p + 1 - 1)) by lia.
  destruct (decide (pin_count_ p + 1 - 1 = 0)) as [Hz|_]; [lia|].
  f_equal. f_equal. destruct s as [pg dm r fl tb h]. unfold set_pages. simpl in *.
  f_equal. apply list_insert_id. rewrite Hp. f_equal.
  destruct p. unfold set_pin_count. simpl. f_equal. lia.
Qed.

(** *** DeletePageImpl, again *)

(** X17.  Deleting is idempotent: [DeletePageImpl] of a page that is not resident
    returns true and changes nothing (lines 153-155), and after any call
    that returned true the page is not resident, so a second call returns
    true and changes nothing. *)
Theorem delete_page_idempotent (s : t) (page_id : page_id_t) :
  (page_table_ s !! page_id = None ->
   DeletePageImpl page_id s = Returns (true, s)) /\
  (forall s', DeletePageImpl page_id s = Returns (true, s') ->
     page_table_ s' !! page_id = None /\
     DeletePageImpl page_id s' = Returns (true, s')).
Proof.
  assert (Habsent : forall s0 : t, page_table_ s0 !! page_id = None ->
                    DeletePageImpl page_id s0 = Returns (true, s0)).
  { intros s0 Hnone. unfold DeletePageImpl, bind, get. now rewrite Hnone. }
  split; [apply Habsent|].
  intros s' Hrun.
  assert (Hgone : page_table_ s' !! page_id = None).
  { revert Hrun. unfold DeletePageImpl, bind, get, ret, page_ref, deref.
    destruct (page_table_ s !! page_id) as [frame_id|] eqn:Htab;
      [|now intros [= <-]].
    destruct (decide _); [|discriminate].
    destruct (pages_ s !! Z.to_nat frame_id) as [p|]; [|discriminate].
    destruct (decide (pin_count_ p ≠ 0)); [discriminate|].
    unfold update_page, table_erase, DeallocatePage, modify. simpl.
    intros [= <-]. simpl. apply lookup_delete_eq. }
  split; [exact Hgone|now apply Habsent].
Qed.

(** *** FlushAllPagesImpl, again *)

Lemma needs_flush_flushed p : needs_flush (flushed p) = false.
Proof.
  unfold flushed. destruct (needs_flush p) eqn:E; [|exact E].
  unfold needs_flush. simpl. apply andb_false_r.
Qed.

Lemma filter_needs_flush_flushed l :
  List.filter needs_flush (map flushed l) = [].
Proof.
  induction l as [|p l IH]; [reflexivity|].
  simpl. now rewrite needs_flush_flushed.
Qed.

Lemma map_flushed_flushed l : map flushed (map flushed l) = map flushed l.
Proof.
  induction l as [|p l IH]; [reflexivity|]. simpl. rewrite IH. f_equal.
  unfold flushed at 1. now rewrite needs_flush_flushed.
Qed.

(** X18.  After [FlushAllPagesImpl] no frame is left to flush, and a second call
    issues no write and changes nothing. *)
Theorem flush_all_idempotent (s : t) :
  exists s', FlushAllPagesImpl s = Returns (tt, s') /\
    Forall (fun p => needs_flush p = false) (pages_ s') /\
    FlushAllPagesImpl s' = Returns (tt, s').
Proof.
  destruct (flush_loop_spec (pool_size_ s) 0 s eq_refl)
    as (s' & Hrun & _ & Hp & _).
  unfold drop, take in Hp. simpl in Hp.
  exists s'. split; [exact Hrun|]. split.
  { rewrite Hp. apply Forall_forall. intros p Hin.
    apply list_elem_of_fmap in Hin as (q & -> & _). apply needs_flush_flushed. }
  destruct (flush_loop_spec (pool_size_ s') 0 s' eq_refl)
    as (s'' & Hrun' & Hh' & Hp' & Ht' & Hf' & Hr' & Hd').
  unfold drop, take in Hh', Hp', Hd'. simpl in Hh', Hp', Hd'.
  rewrite Hp, filter_needs_flush_flushed in Hh', Hd'.
  rewrite Hp, map_flushed_flushed, <- Hp in Hp'.
  simpl in Hh', Hd'. rewrite app_nil_r in Hh'.
  replace s'' with s' in Hrun'; [exact Hrun'|].
  destruct s', s''. simpl in *. congruence.
Qed.

(** *** NewPageImpl and FetchPageImpl on a frame they were given *)

(** Taking a frame changes neither a frame nor the page table, the disk or
    the list of effects. *)
Lemma find_replacement_frame (s s1 : t) o :
  find_replacement s = Returns (o, s1) ->
  pages_ s1 = pages_ s /\ page_table_ s1 = page_table_ s /\
  disk_manager_ s1 = disk_manager_ s /\ history s1 = history s.
Proof.
  unfold find_replacement, bind, get, on_replacer.
  destruct (free_list_ s); [|intros [= <- <-]; now repeat split].
  destruct (LRUReplacer.Victim (replacer_ s)) as [[o' r]| |]; try discriminate.
  intros [= -> <-]. now repeat split.
Qed.

(** The whole effect of [NewPageImpl] when the free list has a frame. *)
Lemma new_page_free_run (s : t) (f : frame_id_t) rest (p : Page) :
  free_list_ s = f :: rest ->
  0 <= f -> pages_ s !! Z.to_nat f = Some p ->
  exists s',
    NewPageImpl s = Returns (Some (next_page_id_ (disk_manager_ s), f), s') /\
    free_list_ s' = rest /\ replacer_ s' = replacer_ s /\
    page_table_ s' = <[next_page_id_ (disk_manager_ s) := f]> (page_table_ s) /\
    pages_ s' =
      <[Z.to_nat f :=
          {| data_ := if is_dirty_ p then data_ p
                      else image (disk_manager_ s) (next_page_id_ (disk_manager_ s));
             page_id_ := next_page_id_ (disk_manager_ s);
             pin_count_ := pin_count_ p;
             is_dirty_ := false |}]> (pages_ s) /\
    next_page_id_ (disk_manager_ s') = next_page_id_ (disk_manager_ s) + 1 /\
    history s' =
      history s ++
      EvAllocatePage (next_page_id_ (disk_manager_ s)) ::
      (if is_dirty_ p
       then [EvWritePage (next_page_id_ (disk_manager_ s)) (data_ p)] else []) ++
      [EvTableErase (next_page_id_ (disk_manager_ s));
       EvTableInsert (next_page_id_ (disk_manager_ s)) f;
       EvReadPage (next_page_id_ (disk_manager_ s))].
Proof.
  intros Hfree Hnn Hp. pose proof (lookup_lt_Some _ _ _ Hp) as Hlt.
  unfold NewPageImpl, find_replacement, bind at 1 2, get. rewrite Hfree.
  unfold bind at 1, modify, ret, bind at 1, AllocatePage, disk_allocate.
  set (pid := next_page_id_ (disk_manager_ s)).
  set (s1 := log _ _).
  assert (Hp1 : pages_ s1 !! Z.to_nat f = Some p) by exact Hp.
  rewrite (bind_returns _ _ _ _ _ (page_ref_ok s1 f p Hnn Hp1)).
  unfold bind, update_page, modify, deref, WritePage, table_erase, table_insert,
    ReadPage, IsDirty. simpl.
  rewrite (alter_at _ _ _ p Hp), (list_lookup_insert_eq _ _ _ Hlt). simpl.
  destruct (is_dirty_ p) eqn:Hd; simpl.
  - rewrite !(alter_insert_at _ _ _ _ Hlt), (list_lookup_insert_eq _ _ _ Hlt).
    simpl. rewrite !(alter_insert_at _ _ _ _ Hlt).
    eexists. split; [reflexivity|]. simpl.
    rewrite insert_delete_eq, <- !app_assoc.
    repeat split.
    destruct (decide _) as [_|Hne]; [reflexivity|now destruct Hne].
  - rewrite (list_lookup_insert_eq _ _ _ Hlt). simpl.
    rewrite !(alter_insert_at _ _ _ _ Hlt).
    eexists. split; [reflexivity|]. simpl.
    rewrite insert_delete_eq, <- !app_assoc.
    repeat split. f_equal. unfold set_data. simpl. now rewrite Hd.
Qed.

(** X14.  The free list comes first (lines 121-123): when it holds a frame,
    [NewPageImpl] takes its front and never consults the replacer, whose
    state, latch included, does not matter and does not change.  The call
    returns the id the allocator hands out; the page table maps that id to
    the frame and keeps its other entries; the frame carries the new id and
    a clear dirty bit and keeps its pin count (the method never assigns
    [pin_count_]); no other frame changes. *)
Theorem new_page_takes_free_frame (s : t) (f : frame_id_t) rest (p : Page) :
  free_list_ s = f :: rest ->
  0 <= f -> pages_ s !! Z.to_nat f = Some p ->
  exists s',
    NewPageImpl s = Returns (Some (next_page_id_ (disk_manager_ s), f), s') /\
    free_list_ s' = rest /\ replacer_ s' = replacer_ s /\
    page_table_ s' !! next_page_id_ (disk_manager_ s) = Some f /\
    (forall q, q ≠ next_page_id_ (disk_manager_ s) ->
       page_table_ s' !! q = page_table_ s !! q) /\
    page_id_ <$> pages_ s' !! Z.to_nat f = Some (next_page_id_ (disk_manager_ s)) /\
    is_dirty_ <$> pages_ s' !! Z.to_nat f = Some false /\
    pin_count_ <$> pages_ s' !! Z.to_nat f = Some (pin_count_ p) /\
    (forall j, j ≠ Z.to_nat f -> pages_ s' !! j = pages_ s !! j).
Proof.
  intros Hfree Hnn Hp. pose proof (lookup_lt_Some _ _ _ Hp) as Hlt.
  destruct (new_page_free_run s f rest p Hfree Hnn Hp)
    as (s' & Hrun & Hfl & Hrep & Htab & Hpages & _).
  exists s'. split; [exact Hrun|]. split; [exact Hfl|]. split; [exact Hrep|].
  rewrite Htab, Hpages, (list_lookup_insert_eq _ _ _ Hlt). simpl.
  split; [apply lookup_insert_eq|].
  split; [intros q Hq; now apply lookup_insert_ne|].
  repeat split. intros j Hj. now apply list_lookup_insert_ne.
Qed.

(** X13.  [FetchPageImpl] of a page that is not resident never installs it: the
    frame it was given keeps the page id and the pin count it had, and its
    dirty bit is clear; the page table maps that old id, not the requested
    one, to the frame; so unless the frame already carried the requested
    id, the requested page is still not resident when the call returns. *)
Theorem fetch_miss_keeps_frame_identity (s : t) (page_id : page_id_t)
        (f : frame_id_t) (s1 : t) (p : Page) :
  page_table_ s !! page_id = None ->
  find_replacement s = Returns (Some f, s1) ->
  0 <= f -> pages_ s !! Z.to_nat f = Some p ->
  exists s', FetchPageImpl page_id s = Returns (Some f, s') /\
    page_table_ s' = <[page_id_ p := f]> (page_table_ s) /\
    pages_ s' =
      <[Z.to_nat f :=
          {| data_ := if is_dirty_ p then data_ p
                      else image (disk_manager_ s) (page_id_ p);
             page_id_ := page_id_ p;
             pin_count_ := pin_count_ p;
             is_dirty_ := false |}]> (pages_ s) /\
    (page_id_ p ≠ page_id -> page_table_ s' !! page_id = None).
Proof.
  intros Hnone Hfind Hnn Hp.
  destruct (find_replacement_frame s s1 _ Hfind) as (Hpages & Htab & Hdisk & _).
  pose proof (lookup_lt_Some _ _ _ Hp) as Hlt.
  unfold FetchPageImpl, bind at 1, get. rewrite Hnone.
  rewrite (bind_returns _ _ _ _ _ Hfind).
  rewrite <- Hpages in Hp, Hlt.
  rewrite (bind_returns _ _ _ _ _ (page_ref_ok s1 f p Hnn Hp)).
  rewrite (bind_returns _ _ _ _ _ (deref_ok s1 _ p Hp)).
  unfold bind, update_page, modify, deref, WritePage, table_erase, table_insert,
    ReadPage, IsDirty. simpl.
  assert (Hlast : forall tbl : gmap Z Z,
            tbl = <[page_id_ p := f]> (page_table_ s) ->
            page_id_ p ≠ page_id -> tbl !! page_id = None).
  { intros tbl -> Hne. now rewrite lookup_insert_ne. }
  destruct (is_dirty_ p) eqn:Hd; simpl.
  - rewrite (alter_at _ _ _ p Hp), (list_lookup_insert_eq _ _ _ Hlt). simpl.
    rewrite !(alter_insert_at _ _ _ _ Hlt).
    eexists. split; [reflexivity|]. simpl.
    rewrite insert_delete_eq, Htab, Hpages.
    split; [reflexivity|]. split; [|now apply Hlast].
    f_equal. unfold set_data. simpl.
    destruct (decide _) as [_|Hne]; [reflexivity|now destruct Hne].
  - rewrite Hp. simpl. rewrite (alter_at _ _ _ p Hp).
    rewrite !(alter_insert_at _ _ _ _ Hlt).
    eexists. split; [reflexivity|]. simpl.
    rewrite insert_delete_eq, Htab, Hpages, Hdisk.
    split; [reflexivity|]. split; [|now apply Hlast].
    f_equal. unfold set_data. simpl. now rewrite Hd.
Qed.

(** *** A fresh pool *)

Lemma fresh_free_list (n : nat) :
  Z.of_nat n <= 2 ^ 31 ->
  map (fun i => int32_wrap (Z.of_nat i)) (seq 0 n) = map Z.of_nat (seq 0 n).
Proof.
  intros Hn. apply map_ext_in. intros i Hi. apply in_seq in Hi.
  apply int32_wrap_small. lia.
Qed.

(** [k] calls of [NewPageImpl] that find the free list holding the frames
    [a], [a + 1], ... *)
Lemma new_pages_run k : forall (a : nat) rest (s : t),
  free_list_ s = map Z.of_nat (seq a k) ++ rest ->
  (a + k <= pool_size_ s)%nat ->
  exists s',
    new_pages k s =
      Returns (map (fun i => Some (next_page_id_ (disk_manager_ s) + Z.of_nat i,
                                   Z.of_nat (a + i))) (seq 0 k), s') /\
    free_list_ s' = rest /\ replacer_ s' = replacer_ s /\
    pool_size_ s' = pool_size_ s /\
    next_page_id_ (disk_manager_ s') = next_page_id_ (disk_manager_ s) + Z.of_nat k /\
    (forall i, (i < k)%nat ->
       page_table_ s' !! (next_page_id_ (disk_manager_ s) + Z.of_nat i)
       = Some (Z.of_nat (a + i))) /\
    (forall q, q < next_page_id_ (disk_manager_ s) ->
       page_table_ s' !! q = page_table_ s !! q).
Proof.
  induction k as [|k IH]; intros a rest s Hfree Hlen.
  - exists s. split; [reflexivity|]. simpl in Hfree.
    repeat split; auto; try lia.
  - simpl in Hfree.
    destruct (lookup_lt_is_Some_2 (pages_ s) a) as [p Hp].
    { unfold pool_size_ in Hlen. lia. }
    rewrite <- (Nat2Z.id a) in Hp.
    destruct (new_page_free_run s (Z.of_nat a) _ p Hfree ltac:(lia) Hp)
      as (s1 & Hrun1 & Hfl1 & Hrep1 & Htab1 & Hpages1 & Hnext1 & _).
    destruct (IH (S a) rest s1 Hfl1) as
      (s' & Hrun & Hfl & Hrep & Hsize & Hnext & Hnew & Hold).
    { unfold pool_size_ in *. rewrite Hpages1, length_insert. lia. }
    exists s'. split.
    { cbn [new_pages]. rewrite (bind_returns _ _ _ _ _ Hrun1).
      rewrite (bind_returns _ _ _ _ _ Hrun). unfold ret. f_equal. f_equal.
      cbn [seq map]. rewrite Z.add_0_r, Nat.add_0_r. f_equal.
      rewrite <- seq_shift, map_map. apply map_ext. intros i.
      rewrite Hnext1. do 2 f_equal; lia. }
    split; [exact Hfl|]. split; [congruence|].
    split. { rewrite Hsize. unfold pool_size_. now rewrite Hpages1, length_insert. }
    split; [rewrite Hnext, Hnext1; lia|].
    split.
    + intros [|i] Hi.
      * rewrite Z.add_0_r, Nat.add_0_r, Hold by lia.
        rewrite Htab1. apply lookup_insert_eq.
      * specialize (Hnew i ltac:(lia)). rewrite Hnext1 in Hnew.
        replace (next_page_id_ (disk_manager_ s) + Z.of_nat (S i))
          with (next_page_id_ (disk_manager_ s) + 1 + Z.of_nat i) by lia.
        rewrite Hnew. f_equal. lia.
    + intros q Hq. rewrite Hold by lia. rewrite Htab1.
      apply lookup_insert_ne. lia.
Qed.

(** X16.  Filling a fresh pool: on a pool of [n] frames just constructed, [n]
    calls of [NewPageImpl] return the ids the allocator hands out, in
    order, in the frames 0, 1, ..., [n - 1]; each new page is then resident
    at its frame, the free list is empty, and one more call returns none. *)
Theorem fresh_pool_fills_in_frame_order (n : nat) (dm : DiskManager) :
  Z.of_nat n <= 2 ^ 31 ->
  exists s',
    new_pages n (init n dm) =
      Returns (map (fun i => Some (next_page_id_ dm + Z.of_nat i, Z.of_nat i))
                   (seq 0 n), s') /\
    free_list_ s' = [] /\
    (forall i, (i < n)%nat ->
       page_table_ s' !! (next_page_id_ dm + Z.of_nat i) = Some (Z.of_nat i)) /\
    exists s'', NewPageImpl s' = Returns (None, s'').
Proof.
  intros Hn.
  destruct (new_pages_run n 0 [] (init n dm))
    as (s' & Hrun & Hfl & Hrep & _ & _ & Hnew & _).
  { simpl. now rewrite fresh_free_list, app_nil_r. }
  { unfold pool_size_. simpl. now rewrite repeat_length. }
  exists s'. split; [exact Hrun|]. split; [exact Hfl|]. split; [exact Hnew|].
  destruct (find_replacement_cases s') as [(_ & _ & Hfind)|(f & s1 & Hne & _)].
  - now rewrite Hrep.
  - eexists. unfold NewPageImpl. now rewrite (bind_returns _ _ _ _ _ Hfind).
  - rewrite Hfl, Hrep in Hne. simpl in Hne. destruct Hne; contradiction.
Qed.

(** *** What every method keeps *)

Lemma pin_kept_alter (g : Page -> Page) i (l : list Page) :
  (forall x, pin_count_ (g x) = pin_count_ x) ->
  Forall (fun p => 0 <= pin_count_ p) l ->
  Forall (fun p => 0 <= pin_count_ p) (alter g i l).
Proof.
  intros Hg Hl. apply Forall_alter; [exact Hl|].
  intros x _ Hx. now rewrite Hg.
Qed.

Lemma find_replacement_pages (s s1 : t) o :
  find_replacement s = Returns (o, s1) -> pages_ s1 = pages_ s.
Proof. intros Hfind. now destruct (find_replacement_frame s s1 o Hfind). Qed.

(** The tail that [FetchPageImpl] and [NewPageImpl] share, from the dirty
    check on, changes fields of one frame other than its pin count. *)
Ltac pin_kept :=
  repeat first
    [ apply pin_kept_alter; [intros ?; reflexivity|]
    | assumption ].

(** X19.  No method resizes the pool or makes a pin count negative: from a state
    whose pin counts are non-negative and below the largest [int], every
    call that returns leaves [pool_size_] frames with non-negative pin
    counts. *)
Theorem pool_size_and_pins_kept (s : t) (page_id : page_id_t) (is_dirty : bool) :
  Forall (fun p => 0 <= pin_count_ p < 2 ^ 31 - 1) (pages_ s) ->
  (forall r s', FetchPageImpl page_id s = Returns (r, s') ->
     pool_size_ s' = pool_size_ s /\ pins_nonneg s') /\
  (forall r s', UnpinPageImpl page_id is_dirty s = Returns (r, s') ->
     pool_size_ s' = pool_size_ s /\ pins_nonneg s') /\
  (forall r s', FlushPageImpl page_id s = Returns (r, s') ->
     pool_size_ s' = pool_size_ s /\ pins_nonneg s') /\
  (forall r s', NewPageImpl s = Returns (r, s') ->
     pool_size_ s' = pool_size_ s /\ pins_nonneg s') /\
  (forall r s', DeletePageImpl page_id s = Returns (r, s') ->
     pool_size_ s' = pool_size_ s /\ pins_nonneg s') /\
  (forall r s', FlushAllPagesImpl s = Returns (r, s') ->
     pool_size_ s' = pool_size_ s /\ pins_nonneg s').
Proof.
  intros Hb.
  assert (Hnn : Forall (fun p => 0 <= pin_count_ p) (pages_ s)).
  { eapply Forall_impl; [exact Hb|]. simpl. intros; lia. }
  unfold pins_nonneg, pool_size_.
  split; [|split; [|split; [|split; [|split]]]]; intros r s'.
  - (* FetchPageImpl *)
    unfold FetchPageImpl, bind at 1, get.
    destruct (page_table_ s !! page_id) as [frame_id|].
    + unfold bind, page_ref, on_replacer, update_page, modify, ret.
      destruct (decide _); [|discriminate].
      destruct (LRUReplacer.Pin frame_id (replacer_ s)) as [[[] r0]| |];
        try discriminate.
      intros [= <- <-]. simpl. rewrite length_alter. split; [reflexivity|].
      apply Forall_alter; [exact Hnn|]. intros x Hx _. simpl.
      pose proof (Forall_lookup_1 _ _ _ _ Hb Hx) as Hbx. simpl in Hbx.
      rewrite int32_wrap_small; lia.
    + unfold bind at 1.
      destruct (find_replacement s) as [[[f|] s1]| |] eqn:Hfind;
        try discriminate; [|intros [= <- <-];
          now rewrite (find_replacement_pages _ _ _ Hfind)].
      pose proof (find_replacement_pages _ _ _ Hfind) as Hpages.
      unfold bind, page_ref, deref, update_page, WritePage, table_erase,
        table_insert, ReadPage, modify, ret, pool_size_.
      destruct (decide _); [|discriminate].
      destruct (pages_ s1 !! Z.to_nat f) as [p|]; [|discriminate].
      destruct (IsDirty p); simpl;
        repeat (case_match; try discriminate); intros E; simplify_eq; simpl;
        rewrite ?length_alter, ?Hpages; (split; [reflexivity|]); pin_kept.
  - (* UnpinPageImpl *)
    unfold UnpinPageImpl, bind at 1, get.
    destruct (page_table_ s !! page_id) as [frame_id|];
      [|now intros [= <- <-]].
    unfold bind, page_ref, deref, update_page, modify, ret.
    destruct (decide _); [|discriminate].
    destruct (pages_ s !! Z.to_nat frame_id) as [p|] eqn:Hp; [|discriminate].
    destruct (decide (pin_count_ p = 0)); [now intros [= <- <-]|].
    simpl. rewrite list_lookup_alter_eq, Hp. simpl.
    assert (Hdec : Forall (fun p => 0 <= pin_count_ p)
              (alter (fun p0 => set_pin_count (int32_wrap (pin_count_ p0 - 1)) p0)
                     (Z.to_nat frame_id) (pages_ s))).
    { apply Forall_alter; [exact Hnn|]. intros x Hx _. simpl.
      assert (x = p) as -> by congruence.
      pose proof (Forall_lookup_1 _ _ _ _ Hb Hp) as Hbp. simpl in Hbp.
      rewrite int32_wrap_small; lia. }
    destruct (decide (int32_wrap (pin_count_ p - 1) = 0)); unfold on_replacer;
      simpl; repeat (case_match; try discriminate); intros E; simplify_eq; simpl;
      rewrite ?length_alter; (split; [reflexivity|]); pin_kept.
  - (* FlushPageImpl *)
    unfold FlushPageImpl, bind, get, page_ref, deref, WritePage, modify, ret.
    repeat (case_match; try discriminate); intros E; simplify_eq; simpl; now split.
  - (* NewPageImpl *)
    unfold NewPageImpl, bind at 1.
    destruct (find_replacement s) as [[[f|] s1]| |] eqn:Hfind;
      try discriminate; [|intros [= <- <-];
        now rewrite (find_replacement_pages _ _ _ Hfind)].
    pose proof (find_replacement_pages _ _ _ Hfind) as Hpages.
    unfold bind, AllocatePage, disk_allocate, page_ref, deref, update_page,
      WritePage, table_erase, table_insert, ReadPage, modify, ret, pool_size_.
    simpl. destruct (decide _); [|discriminate].
    simpl.
    repeat (case_match; try discriminate); intros E; simplify_eq; simpl;
      rewrite ?length_alter, ?Hpages; (split; [reflexivity|]); pin_kept.
  - (* DeletePageImpl *)
    unfold DeletePageImpl, bind, get, page_ref, deref, update_page, table_erase,
      DeallocatePage, modify, ret.
    repeat (case_match; try discriminate); intros E; simplify_eq; simpl;
      rewrite ?length_alter; (split; [reflexivity|]); pin_kept.
  - (* FlushAllPagesImpl *)
    destruct (flush_loop_spec (pool_size_ s) 0 s eq_refl)
      as (s2 & Hrun & _ & Hp & _).
    unfold drop, take in Hp. simpl in Hp.
    unfold FlushAllPagesImpl, bind, get. fold (pool_size_ s). rewrite Hrun.
    intros [= <- <-]. rewrite Hp, length_map. split; [reflexivity|].
    apply Forall_fmap. eapply Forall_impl; [exact Hnn|].
    intros x Hx. unfold flushed. simpl. now destruct (needs_flush x).
Qed.

(** *** Eviction *)

(** The whole effect of [NewPageImpl] on the frame it was given. *)
Lemma new_page_run (s s1 : t) (f : frame_id_t) (p : Page) :
  find_replacement s = Returns (Some f, s1) ->
  0 <= f -> pages_ s !! Z.to_nat f = Some p ->
  exists s',
    NewPageImpl s = Returns (Some (next_page_id_ (disk_manager_ s), f), s') /\
    free_list_ s' = free_list_ s1 /\ replacer_ s' = replacer_ s1 /\
    page_table_ s' = <[next_page_id_ (disk_manager_ s) := f]> (page_table_ s) /\
    pages_ s' =
      <[Z.to_nat f :=
          {| data_ := if is_dirty_ p then data_ p
                      else image (disk_manager_ s) (next_page_id_ (disk_manager_ s));
             page_id_ := next_page_id_ (disk_manager_ s);
             pin_count_ := pin_count_ p;
             is_dirty_ := false |}]> (pages_ s).
Proof.
  intros Hfind Hnn Hp.
  destruct (find_replacement_frame s s1 _ Hfind) as (Hpages & Htab & Hdisk & _).
  pose proof (lookup_lt_Some _ _ _ Hp) as Hlt.
  rewrite <- Hpages in Hp, Hlt.
  unfold NewPageImpl. rewrite (bind_returns _ _ _ _ _ Hfind).
  unfold bind at 1, AllocatePage, disk_allocate. rewrite Hdisk.
  match goal with
  | |- context [bind (page_ref f) ?k ?s2] =>
      rewrite (bind_returns (page_ref f) k s2 _ _ (page_ref_ok s2 f p Hnn Hp))
  end.
  unfold bind, update_page, modify, deref, WritePage, table_erase, table_insert,
    ReadPage, IsDirty, ret. simpl.
  rewrite (alter_at _ _ _ p Hp), (list_lookup_insert_eq _ _ _ Hlt). simpl.
  destruct (is_dirty_ p) eqn:Hd; simpl.
  - rewrite !(alter_insert_at _ _ _ _ Hlt), (list_lookup_insert_eq _ _ _ Hlt).
    simpl. rewrite !(alter_insert_at _ _ _ _ Hlt).
    eexists. split; [reflexivity|]. simpl.
    rewrite insert_delete_eq, Htab, Hpages. repeat split.
    destruct (decide _) as [_|Hne]; [reflexivity|now destruct Hne].
  - rewrite (list_lookup_insert_eq _ _ _ Hlt). simpl.
    rewrite !(alter_insert_at _ _ _ _ Hlt).
    eexists. split; [reflexivity|]. simpl.
    rewrite insert_delete_eq, Htab, Hpages.
    repeat split. f_equal. unfold set_data. simpl. now rewrite Hd.
Qed.

(** X15.  With an empty free list [NewPageImpl] evicts the replacer's victim, the
    frame at the back of its list (lines 124-128): the frame leaves the
    replacer and receives the new id, keeping its pin count.  The page table
    gains the entry of the new id and loses none: the entry of the evicted
    page, if it had one, still points at the frame. *)
Theorem new_page_evicts_lru_victim (s : t) (f : frame_id_t) l (p : Page) :
  free_list_ s = [] ->
  LRUReplacer.latch (replacer_ s) = false ->
  LRUReplacer.lru_list (replacer_ s) = l ++ [f] ->
  0 <= f -> pages_ s !! Z.to_nat f = Some p ->
  exists s',
    NewPageImpl s = Returns (Some (next_page_id_ (disk_manager_ s), f), s') /\
    free_list_ s' = [] /\
    LRUReplacer.lru_list (replacer_ s') = l /\
    LRUReplacer.lruMap (replacer_ s') = LRUReplacer.lruMap (replacer_ s) ∖ {[ f ]} /\
    LRUReplacer.latch (replacer_ s') = false /\
    page_table_ s' = <[next_page_id_ (disk_manager_ s) := f]> (page_table_ s) /\
    (forall q, q ≠ next_page_id_ (disk_manager_ s) ->
       page_table_ s' !! q = page_table_ s !! q) /\
    page_id_ <$> pages_ s' !! Z.to_nat f = Some (next_page_id_ (disk_manager_ s)) /\
    pin_count_ <$> pages_ s' !! Z.to_nat f = Some (pin_count_ p).
Proof.
  intros Hfree Hl Hlist Hnn Hp. pose proof (lookup_lt_Some _ _ _ Hp) as Hlt.
  assert (Hfind : find_replacement s =
                  Returns (Some f, set_replacer
                    (LRUReplacer.mk (LRUReplacer.capacity (replacer_ s)) l
                       (LRUReplacer.lruMap (replacer_ s) ∖ {[ f ]}) false) s)).
  { unfold find_replacement, bind, get. rewrite Hfree.
    apply on_replacer_returns. now apply victim_back. }
  destruct (new_page_run s _ f p Hfind Hnn Hp)
    as (s' & Hrun & Hfl & Hrep & Htab & Hpages).
  exists s'. split; [exact Hrun|]. rewrite Hfl, Hrep, Htab, Hpages. simpl.
  rewrite (list_lookup_insert_eq _ _ _ Hlt). simpl.
  repeat split; try assumption. intros q Hq. now apply lookup_insert_ne.
Qed.

Lemma find_replacement_replacer_ok (s s1 : t) o :
  replacer_ok (replacer_ s) -> find_replacement s = Returns (o, s1) ->
  replacer_ok (replacer_ s1) /\
  LRUReplacer.capacity (replacer_ s1) = LRUReplacer.capacity (replacer_ s).
Proof.
  intros Hok. unfold find_replacement, bind, get, on_replacer.
  destruct (free_list_ s); [|intros [= _ <-]; now split].
  destruct (LRUReplacer.Victim (replacer_ s)) as [[o' r]| |] eqn:Hv;
    try discriminate.
  intros [= _ <-]. simpl. exact (victim_returns_ok _ _ _ Hok Hv).
Qed.

(** X20.  The manager never corrupts its replacer: it reaches it only through
    [Pin], [Unpin] and [Victim], so from a consistent replacer every call
    that returns leaves a consistent replacer of the same capacity. *)
Theorem manager_keeps_replacer_ok (s : t) (page_id : page_id_t) (is_dirty : bool) :
  replacer_ok (replacer_ s) ->
  (forall r s', FetchPageImpl page_id s = Returns (r, s') ->
     replacer_ok (replacer_ s') /\
     LRUReplacer.capacity (replacer_ s') = LRUReplacer.capacity (replacer_ s)) /\
  (forall r s', UnpinPageImpl page_id is_dirty s = Returns (r, s') ->
     replacer_ok (replacer_ s') /\
     LRUReplacer.capacity (replacer_ s') = LRUReplacer.capacity (replacer_ s)) /\
  (forall r s', FlushPageImpl page_id s = Returns (r, s') ->
     replacer_ s' = replacer_ s) /\
  (forall r s', NewPageImpl s = Returns (r, s') ->
     replacer_ok (replacer_ s') /\
     LRUReplacer.capacity (replacer_ s') = LRUReplacer.capacity (replacer_ s)) /\
  (forall r s', DeletePageImpl page_id s = Returns (r, s') ->
     replacer_ s' = replacer_ s) /\
  (forall r s', FlushAllPagesImpl s = Returns (r, s') ->
     replacer_ s' = replacer_ s).
Proof.
  intros Hok.
  split; [|split; [|split; [|split; [|split]]]]; intros r s'.
  - (* FetchPageImpl *)
    unfold FetchPageImpl, bind at 1, get.
    destruct (page_table_ s !! page_id) as [frame_id|].
    + unfold bind, page_ref, on_replacer, update_page, modify, ret.
      destruct (decide _); [|discriminate].
      destruct (LRUReplacer.Pin frame_id (replacer_ s)) as [[u r0]| |] eqn:Hpin;
        try discriminate.
      intros [= <- <-]. simpl. exact (pin_returns_ok _ _ _ _ Hok Hpin).
    + unfold bind at 1.
      destruct (find_replacement s) as [[[f|] s1]| |] eqn:Hfind;
        try discriminate;
        pose proof (find_replacement_replacer_ok _ _ _ Hok Hfind) as Hok1;
        [|now intros [= <- <-]].
      unfold bind, page_ref, deref, update_page, WritePage, table_erase,
        table_insert, ReadPage, modify, ret.
      repeat (case_match; try discriminate); intros E; simplify_eq; simpl;
        exact Hok1.
  - (* UnpinPageImpl *)
    unfold UnpinPageImpl, bind at 1, get.
    destruct (page_table_ s !! page_id) as [frame_id|];
      [|now intros [= <- <-]].
    unfold bind, page_ref, deref, update_page, modify, ret, on_replacer.
    destruct (decide _); [|discriminate].
    destruct (pages_ s !! Z.to_nat frame_id) as [p|]; [|discriminate].
    destruct (decide (pin_count_ p = 0)); [now intros [= <- <-]|].
    simpl.
    destruct (alter _ _ _ !! _) as [p1|]; [|discriminate].
    destruct (decide (pin_count_ p1 = 0)).
    + simpl.
      destruct (LRUReplacer.Unpin frame_id (replacer_ s)) as [[u r0]| |] eqn:Hun;
        try discriminate.
      destruct is_dirty; simpl; intros [= <- <-]; simpl;
        exact (unpin_returns_ok _ _ _ _ Hok Hun).
    + destruct is_dirty; simpl; intros [= <- <-]; simpl; now split.
  - (* FlushPageImpl *)
    unfold FlushPageImpl, bind, get, page_ref, deref, WritePage, modify, ret.
    repeat (case_match; try discriminate); intros E; simplify_eq; reflexivity.
  - (* NewPageImpl *)
    unfold NewPageImpl, bind at 1.
    destruct (find_replacement s) as [[[f|] s1]| |] eqn:Hfind;
      try discriminate;
      pose proof (find_replacement_replacer_ok _ _ _ Hok Hfind) as Hok1;
      [|now intros [= <- <-]].
    unfold bind, AllocatePage, disk_allocate, page_ref, deref, update_page,
      WritePage, table_erase, table_insert, ReadPage, modify, ret.
    simpl.
    repeat (case_match; try discriminate); intros E; simplify_eq; simpl;
      exact Hok1.
  - (* DeletePageImpl *)
    unfold DeletePageImpl, bind, get, page_ref, deref, update_page, table_erase,
      DeallocatePage, modify, ret.
    repeat (case_match; try discriminate); intros E; simplify_eq; reflexivity.
  - (* FlushAllPagesImpl *)
    destruct (flush_loop_spec (pool_size_ s) 0 s eq_refl)
      as (s2 & Hrun & _ & _ & _ & _ & Hrep & _).
    unfold FlushAllPagesImpl, bind, get. rewrite Hrun.
    now intros [= <- <-].
Qed.

End Manager.

(** ** The general statements at concrete inputs *)

(** At the input: a page that is absent and a pinned page of [pinned_once]. *)
Lemma failed_unpin_delete_change_nothing_witness :
  UnpinPageImpl 7 true pinned_once = Returns (false, pinned_once) /\
  DeletePageImpl 0 pinned_once = Returns (false, pinned_once).
Proof.
  split.
  - apply (proj1 (proj2 (proj2
             (failed_unpin_delete_change_nothing pinned_once 7 true)))).
    vm_compute. reflexivity.
  - apply (proj2 (proj2 (proj2
             (failed_unpin_delete_change_nothing pinned_once 0 true))) 0
             {| data_ := repeat Byte.x00 PAGE_SIZE; page_id_ := 0;
                pin_count_ := 1; is_dirty_ := false |}).
    + vm_compute. reflexivity.
    + lia.
    + vm_compute. reflexivity.
    + simpl. lia.
Defined.

(** At the input: the last unpin of page 0 of [pinned_once], as dirty. *)
Lemma unpin_page_spec_witness :
  exists s',
    UnpinPageImpl 0 true pinned_once = Returns (true, s') /\
    pages_ s' !! 0%nat =
      Some {| data_ := repeat Byte.x00 PAGE_SIZE; page_id_ := 0;
              pin_count_ := 0; is_dirty_ := true |} /\
    0 ∈ LRUReplacer.lruMap (replacer_ s') /\
    page_table_ s' = page_table_ pinned_once /\
    history s' = history pinned_once.
Proof.
  destruct (proj2 (unpin_page_spec pinned_once 0 true) 0
              {| data_ := repeat Byte.x00 PAGE_SIZE; page_id_ := 0;
                 pin_count_ := 1; is_dirty_ := false |}) as [_ Hdo].
  - vm_compute. reflexivity.
  - lia.
  - vm_compute. reflexivity.
  - destruct Hdo as (s' & Hrun & Hframe & _ & Hone & _ & Htab & _ & _ & Hhist).
    + simpl. lia.
    + simpl. lia.
    + intros _. split; [reflexivity|]. vm_compute. lia.
    + exists s'. split; [exact Hrun|]. split; [exact Hframe|].
      split; [exact (proj1 (Hone eq_refl))|]. split; [exact Htab|exact Hhist].
Defined.

(** At the input: [pool_exhausted], and page 9, which is not resident. *)
Lemma exhaustion_with_free_latch_witness :
  NewPageImpl pool_exhausted = Returns (None, latch_held pool_exhausted) /\
  FetchPageImpl 9 pool_exhausted = Returns (None, latch_held pool_exhausted).
Proof.
  destruct (exhaustion_with_free_latch pool_exhausted 9 eq_refl)
    as (_ & _ & Hnone).
  destruct Hnone as [Hnew Hfetch]; [reflexivity|reflexivity|].
  split; [exact Hnew|]. apply Hfetch. vm_compute. reflexivity.
Defined.

(** At the input: page 0 of [one_dirty_page]. *)
Lemma flush_page_writes_and_keeps_frames_witness :
  exists s',
    FlushPageImpl 0 one_dirty_page = Returns (true, s') /\
    history s' = history one_dirty_page ++ [EvWritePage 0 bytesA] /\
    pages_ s' = pages_ one_dirty_page.
Proof.
  destruct (proj2 (flush_page_writes_and_keeps_frames one_dirty_page 0) 0
              {| data_ := bytesA; page_id_ := 0;
                 pin_count_ := 0; is_dirty_ := true |})
    as (s' & Hrun & Hhist & _ & Hpages & _).
  - vm_compute. reflexivity.
  - lia.
  - vm_compute. reflexivity.
  - exists s'. split; [exact Hrun|]. split; [exact Hhist|exact Hpages].
Defined.

(** At the input: page 5 fetched into the dirty frame of [one_dirty_page]. *)
Lemma fetch_miss_writes_back_first_witness :
  exists s',
    FetchPageImpl 5 one_dirty_page = Returns (Some 0, s') /\
    history s' = history one_dirty_page ++
      [EvWritePage 0 bytesA; EvTableErase 0; EvTableInsert 0 0; EvReadPage 0] /\
    image (disk_manager_ s') 0 = bytesA.
Proof.
  apply (fetch_miss_writes_back_first one_dirty_page 5 0
           (state_after find_replacement one_dirty_page)
           {| data_ := bytesA; page_id_ := 0;
              pin_count_ := 0; is_dirty_ := true |}).
  - vm_compute. reflexivity.
  - vm_compute. reflexivity.
  - lia.
  - vm_compute. reflexivity.
  - reflexivity.
Defined.

(** ** The further statements at concrete inputs *)

Lemma tracking_three_ok : replacer_ok tracking_three.
Proof.
  split; [|split]; simpl.
  - apply NoDup_cons_2; [|apply NoDup_cons_2; [|apply NoDup_singleton]];
      rewrite ?elem_of_cons, ?elem_of_nil; intuition congruence.
  - intros x. rewrite !elem_of_union, !elem_of_singleton, !elem_of_cons,
      elem_of_nil. tauto.
  - lia.
Qed.

Lemma one_dirty_page_replacer :
  replacer_ one_dirty_page =
  {| LRUReplacer.capacity := 1; LRUReplacer.lru_list := [0];
     LRUReplacer.lruMap := {[ 0 ]}; LRUReplacer.latch := false |}.
Proof. vm_compute. reflexivity. Qed.

Lemma one_dirty_page_replacer_ok : replacer_ok (replacer_ one_dirty_page).
Proof.
  rewrite one_dirty_page_replacer. split; [|split]; simpl.
  - apply NoDup_singleton.
  - intros x. rewrite elem_of_singleton, list_elem_of_singleton. tauto.
  - lia.
Qed.

(** At the input: frame 1 of [tracking_three]. *)
Lemma pin_forgets_frame_witness :
  exists r', LRUReplacer.Pin 1 tracking_three = Returns (tt, r') /\
    LRUReplacer.lru_list r' = [2; 0] /\ (1 ∉ LRUReplacer.lruMap r') /\
    replacer_ok r'.
Proof.
  destruct (pin_forgets_frame tracking_three 1 eq_refl tracking_three_ok)
    as (r' & Hrun & _ & _ & _ & Hmap & Hlist & _ & Hok).
  exists r'. split; [exact Hrun|]. split; [exact Hlist|]. now split.
Defined.

(** At the input: frame 7 on [tracking_three], which is full, and on a
    replacer of capacity 0. *)
Lemma unpin_beyond_capacity_witness :
  LRUReplacer.Unpin 7 tracking_three =
    Returns (tt, LRUReplacer.mk 3 [7; 2; 1] ({[ 7 ]} ∪ {[ 0; 1; 2 ]} ∖ {[ 0 ]}) false) /\
  LRUReplacer.Unpin 7 (LRUReplacer.init 0) = Undefined.
Proof.
  split.
  - apply (proj1 (unpin_beyond_capacity tracking_three 7 eq_refl
                    ltac:(vm_compute; discriminate) ltac:(simpl; lia))
             [2; 1] 0 eq_refl).
  - apply (proj2 (unpin_beyond_capacity (LRUReplacer.init 0) 7 eq_refl
                    ltac:(apply not_elem_of_empty) ltac:(simpl; lia)) eq_refl).
Defined.

(** At the input: frame 7 on [tracking_three]. *)
Lemma replacer_ok_kept_witness :
  (exists r', LRUReplacer.Unpin 7 tracking_three = Returns (tt, r') /\
     replacer_ok r' /\ LRUReplacer.latch r' = false /\
     LRUReplacer.capacity r' = 3%nat) /\
  LRUReplacer.Size tracking_three = size (LRUReplacer.lruMap tracking_three) /\
  (LRUReplacer.Size tracking_three <= 3)%nat.
Proof.
  destruct (replacer_ok_kept tracking_three 7 eq_refl tracking_three_ok)
    as (_ & Hunpin & _ & Hsize & Hcap).
  split; [apply Hunpin; simpl; lia|]. split; [exact Hsize|exact Hcap].
Defined.

(** At the input: frame 0 on an empty replacer of capacity 3. *)
Lemma unpin_idempotent_witness :
  exists r', LRUReplacer.Unpin 0 (LRUReplacer.init 3) = Returns (tt, r') /\
    (LRUReplacer.Unpin 0 ;; LRUReplacer.Unpin 0)%monad (LRUReplacer.init 3)
    = Returns (tt, r').
Proof.
  apply (unpin_idempotent (LRUReplacer.init 3) 0 eq_refl). simpl. lia.
Defined.

(** At the input: frame 0 on an empty replacer of capacity 3. *)
Lemma unpin_pin_round_trip_witness :
  (LRUReplacer.Unpin 0 ;; LRUReplacer.Pin 0)%monad (LRUReplacer.init 3)
  = Returns (tt, LRUReplacer.init 3).
Proof.
  apply (unpin_pin_round_trip (LRUReplacer.init 3) 0 eq_refl (init_ok 3)).
  - apply not_elem_of_empty.
  - simpl. lia.
Defined.

(** At the input: an empty replacer of capacity 3 after a failed [Victim]. *)
Lemma failed_victim_blocks_replacer_witness :
  LRUReplacer.Victim (LRUReplacer.set_latch true (LRUReplacer.init 3)) = Blocks /\
  LRUReplacer.Pin 0 (LRUReplacer.set_latch true (LRUReplacer.init 3)) = Blocks /\
  LRUReplacer.Unpin 0 (LRUReplacer.set_latch true (LRUReplacer.init 3)) = Blocks.
Proof.
  apply (failed_victim_blocks_replacer (LRUReplacer.init 3)). reflexivity.
Defined.

(** At the input: frame 0, the next victim of [tracking_three]. *)
Lemma pin_unpin_moves_to_front_witness :
  exists r', (LRUReplacer.Pin 0 ;; LRUReplacer.Unpin 0)%monad tracking_three
             = Returns (tt, r') /\
    LRUReplacer.lru_list r' = [0; 2; 1] /\
    LRUReplacer.lruMap r' = LRUReplacer.lruMap tracking_three.
Proof.
  destruct (pin_unpin_moves_to_front tracking_three 0 eq_refl tracking_three_ok)
    as (r' & Hrun & Hlist & Hmap & _).
  - simpl. rewrite !elem_of_union, !elem_of_singleton. tauto.
  - exists r'. split; [exact Hrun|]. split; [exact Hlist|exact Hmap].
Defined.

(** At the input: page 0 of [one_dirty_page], resident and in the replacer. *)
Lemma fetch_resident_pins_witness :
  exists s', FetchPageImpl 0 one_dirty_page = Returns (Some 0, s') /\
    pin_count_ <$> pages_ s' !! 0%nat = Some 1 /\
    (0 ∉ LRUReplacer.lruMap (replacer_ s')) /\
    LRUReplacer.lru_list (replacer_ s') = [] /\
    history s' = history one_dirty_page.
Proof.
  destruct (fetch_resident_pins one_dirty_page 0 0
              {| data_ := bytesA; page_id_ := 0;
                 pin_count_ := 0; is_dirty_ := true |})
    as (s' & Hrun & Hpages & Hmap & _ & Hlist & _ & _ & _ & _ & Hhist).
  - vm_compute. reflexivity.
  - lia.
  - vm_compute. reflexivity.
  - reflexivity.
  - simpl. lia.
  - exists s'. split; [exact Hrun|]. split; [now rewrite Hpages|].
    split; [exact Hmap|]. split; [|exact Hhist].
    rewrite Hlist, one_dirty_page_replacer. reflexivity.
Defined.

(** At the input: page 0 of [pinned_once]. *)
Lemma fetch_unpin_round_trip_witness :
  (FetchPageImpl 0 ;; UnpinPageImpl 0 false)%monad pinned_once
  = Returns (true, pinned_once).
Proof.
  apply (fetch_unpin_round_trip pinned_once 0 0
           {| data_ := repeat Byte.x00 PAGE_SIZE; page_id_ := 0;
              pin_count_ := 1; is_dirty_ := false |}).
  - vm_compute. reflexivity.
  - lia.
  - vm_compute. reflexivity.
  - reflexivity.
  - apply not_elem_of_empty.
  - simpl. lia.
Defined.

(** At the input: a fresh pool of two frames. *)
Lemma new_page_takes_free_frame_witness :
  exists s', NewPageImpl (init 2 disk0) = Returns (Some (0, 0), s') /\
    free_list_ s' = [1] /\ replacer_ s' = replacer_ (init 2 disk0) /\
    page_table_ s' !! 0 = Some 0 /\
    pin_count_ <$> pages_ s' !! 0%nat = Some 0.
Proof.
  destruct (new_page_takes_free_frame (init 2 disk0) 0 [1] Page_new)
    as (s' & Hrun & Hfl & Hrep & Htab & _ & _ & _ & Hpin & _).
  - reflexivity.
  - lia.
  - reflexivity.
  - exists s'. split; [exact Hrun|]. split; [exact Hfl|]. split; [exact Hrep|].
    split; [exact Htab|exact Hpin].
Defined.

(** At the input: page 5 fetched from a fresh pool of one frame. *)
Lemma fetch_miss_keeps_frame_identity_witness :
  exists s', FetchPageImpl 5 (init 1 disk0) = Returns (Some 0, s') /\
    page_table_ s' = <[INVALID_PAGE_ID := 0]> (page_table_ (init 1 disk0)) /\
    page_table_ s' !! 5 = None.
Proof.
  destruct (fetch_miss_keeps_frame_identity (init 1 disk0) 5 0
              (state_after find_replacement (init 1 disk0)) Page_new)
    as (s' & Hrun & Htab & _ & Habsent).
  - reflexivity.
  - reflexivity.
  - lia.
  - reflexivity.
  - exists s'. split; [exact Hrun|]. split; [exact Htab|].
    apply Habsent. simpl. lia.
Defined.

(** At the input: a fresh pool of three frames on the empty disk. *)
Lemma fresh_pool_fills_in_frame_order_witness :
  exists s',
    new_pages 3 (init 3 disk0) =
      Returns ([Some (0, 0); Some (1, 1); Some (2, 2)], s') /\
    free_list_ s' = [] /\
    exists s'', NewPageImpl s' = Returns (None, s'').
Proof.
  destruct (fresh_pool_fills_in_frame_order 3 disk0)
    as (s' & Hrun & Hfl & _ & Hnone).
  - simpl. lia.
  - exists s'. split; [exact Hrun|]. split; [exact Hfl|exact Hnone].
Defined.

(** At the input: the last unpin of page 0 of [pinned_once]. *)
Lemma pool_size_and_pins_kept_witness :
  pool_size_ (state_after (UnpinPageImpl 0 true) pinned_once)
  = pool_size_ pinned_once /\
  pins_nonneg (state_after (UnpinPageImpl 0 true) pinned_once).
Proof.
  assert (Hpages : pages_ pinned_once =
            [{| data_ := repeat Byte.x00 PAGE_SIZE; page_id_ := 0;
                pin_count_ := 1; is_dirty_ := false |}])
    by (vm_compute; reflexivity).
  apply (proj1 (proj2 (pool_size_and_pins_kept pinned_once 0 true
           ltac:(rewrite Hpages; repeat constructor; simpl; lia))) true).
  vm_compute. reflexivity.
Defined.

(** At the input: [NewPageImpl] on [one_dirty_page], which evicts frame 0. *)
Lemma manager_keeps_replacer_ok_witness :
  replacer_ok (replacer_ (state_after NewPageImpl one_dirty_page)) /\
  LRUReplacer.capacity (replacer_ (state_after NewPageImpl one_dirty_page))
  = LRUReplacer.capacity (replacer_ one_dirty_page).
Proof.
  apply (proj1 (proj2 (proj2 (proj2
           (manager_keeps_replacer_ok one_dirty_page 0 true
              one_dirty_page_replacer_ok)))) (Some (1, 0))).
  vm_compute. reflexivity.
Defined.

(** At the input: [one_dirty_page], whose frame 0 holds page 0. *)
Lemma new_page_evicts_lru_victim_witness :
  exists s', NewPageImpl one_dirty_page = Returns (Some (1, 0), s') /\
    LRUReplacer.lru_list (replacer_ s') = [] /\
    page_table_ s' !! 1 = Some 0 /\
    page_table_ s' !! 0 = Some 0 /\
    page_id_ <$> pages_ s' !! 0%nat = Some 1.
Proof.
  destruct (new_page_evicts_lru_victim one_dirty_page 0 []
              {| data_ := bytesA; page_id_ := 0;
                 pin_count_ := 0; is_dirty_ := true |})
    as (s' & Hrun & _ & Hlist & _ & _ & Htab & Hkeep & Hid & _).
  - reflexivity.
  - reflexivity.
  - vm_compute. reflexivity.
  - lia.
  - vm_compute. reflexivity.
  - exists s'. split; [exact Hrun|]. split; [exact Hlist|].
    split; [rewrite Htab; apply lookup_insert_eq|].
    split; [|exact Hid].
    rewrite Hkeep by (vm_compute; discriminate). vm_compute. reflexivity.
Defined.

(** ** Where the code departs from the specification *)

(** C1. At the input "fetch page 5 from a fresh pool of one frame":
    [FetchPageImpl] takes frame 0 from the free list and returns it, but the
    frame still holds [INVALID_PAGE_ID] and pin count 0, the page table maps
    [INVALID_PAGE_ID], not page 5, to frame 0, and the disk read is a read
    of [INVALID_PAGE_ID].  The method never assigns [page_id_] or
    [pin_count_] and uses the frame's old page id where the requested one is
    meant. *)
Theorem fetch_miss_keeps_old_occupant :
  returns_with (FetchPageImpl 5 (init 1 disk0)) (fun r s' =>
    r = Some 0 /\
    page_id_ <$> pages_ s' !! 0%nat = Some INVALID_PAGE_ID /\
    pin_count_ <$> pages_ s' !! 0%nat = Some 0 /\
    page_table_ s' !! 5 = None /\
    page_table_ s' !! INVALID_PAGE_ID = Some 0 /\
    history s' = [EvTableErase INVALID_PAGE_ID;
                  EvTableInsert INVALID_PAGE_ID 0;
                  EvReadPage INVALID_PAGE_ID]).
Proof. vm_compute. repeat split. Qed.

(** C2. At the input [one_dirty_page] (frame 0 holds page 0, dirty, full of
    the letter A, and is the replacer's victim): [NewPageImpl] allocates
    page 1, stores 1 in the frame's [page_id_] and only then writes the
    dirty bytes, at page id 1.  Page 0 on disk keeps its zeroes.  (The write
    does come before the page table is touched.) *)
Theorem new_page_writes_victim_at_new_id :
  pages_ one_dirty_page =
    [{| data_ := bytesA; page_id_ := 0; pin_count_ := 0; is_dirty_ := true |}] /\
  free_list_ one_dirty_page = [] /\
  LRUReplacer.lru_list (replacer_ one_dirty_page) = [0] /\
  returns_with (NewPageImpl one_dirty_page) (fun r s' =>
    r = Some (1, 0) /\
    history s' = history one_dirty_page ++
      [EvAllocatePage 1; EvWritePage 1 bytesA;
       EvTableErase 1; EvTableInsert 1 0; EvReadPage 1] /\
    image (disk_manager_ s') 0 = repeat Byte.x00 PAGE_SIZE /\
    image (disk_manager_ s') 1 = bytesA).
Proof. vm_compute. repeat split. Qed.

(** C3. [NewPageImpl] ends with a call of [ReadPage] at the page id it has
    just allocated: on a fresh pool of one frame the effects are allocate,
    erase, insert, read.  On [one_dirty_page] the read brings back the bytes
    that the same call has just written at the new id, so the new page's
    buffer is full of the letter A, not zeroed. *)
Theorem new_page_reads_disk :
  returns_with (NewPageImpl (init 1 disk0)) (fun r s' =>
    r = Some (0, 0) /\
    history s' = [EvAllocatePage 0; EvTableErase 0; EvTableInsert 0 0;
                  EvReadPage 0]) /\
  returns_with (NewPageImpl one_dirty_page) (fun r s' =>
    r = Some (1, 0) /\
    List.filter is_read (history s') = [EvReadPage 0; EvReadPage 1] /\
    data_ <$> pages_ s' !! 0%nat = Some bytesA).
Proof. vm_compute. repeat split. Qed.

(** C4. At the input [page1_in_frame0] (page 1 resident at frame 0, pin count
    0, dirty, frame 0 in the replacer): [DeletePageImpl 1] returns true,
    zeroes the buffer, removes the page-table entry and calls
    [DeallocatePage 1]; but it appends the page id 1, not the frame id 0, to
    the free list, leaves [page_id_ = 1] and the dirty bit set, and leaves
    frame 0 in the replacer.  The next [NewPageImpl] takes "frame 1" from
    the free list, outside the one-frame array. *)
Theorem delete_page_frees_page_id :
  page_table_ page1_in_frame0 !! 1 = Some 0 /\
  pages_ page1_in_frame0 =
    [{| data_ := repeat Byte.x00 PAGE_SIZE; page_id_ := 1;
        pin_count_ := 0; is_dirty_ := true |}] /\
  LRUReplacer.lru_list (replacer_ page1_in_frame0) = [0] /\
  free_list_ page1_in_frame0 = [] /\
  returns_with (DeletePageImpl 1 page1_in_frame0) (fun r s' =>
    r = true /\
    free_list_ s' = [1] /\
    pages_ s' =
      [{| data_ := repeat Byte.x00 PAGE_SIZE; page_id_ := 1;
          pin_count_ := 0; is_dirty_ := true |}] /\
    LRUReplacer.lru_list (replacer_ s') = [0] /\
    page_table_ s' !! 1 = None /\
    history s' = history page1_in_frame0 ++ [EvTableErase 1; EvDeallocatePage 1] /\
    NewPageImpl s' = Undefined).
Proof. vm_compute. repeat split. Qed.

(** C5. At the input [one_dirty_page]: [FlushPageImpl 0] returns true and
    writes the frame's bytes at page id 0, but the frame is still dirty
    afterwards. *)
Theorem flush_page_leaves_dirty_bit :
  page_table_ one_dirty_page !! 0 = Some 0 /\
  returns_with (FlushPageImpl 0 one_dirty_page) (fun r s' =>
    r = true /\
    history s' = history one_dirty_page ++ [EvWritePage 0 bytesA] /\
    image (disk_manager_ s') 0 = bytesA /\
    pages_ s' =
      [{| data_ := bytesA; page_id_ := 0; pin_count_ := 0; is_dirty_ := true |}]).
Proof. vm_compute. repeat split. Qed.

(** C7. At the input [pool_exhausted] (free list and replacer both empty):
    [NewPageImpl] returns none, and leaves the replacer's latch held,
    because [Victim] returns false without unlocking.  In the state it
    leaves, free list and replacer are still empty, yet [NewPageImpl], and
    [FetchPageImpl] of the absent page 9, do not return none: they wait for
    the latch for ever. *)
Theorem second_exhaustion_blocks :
  free_list_ pool_exhausted = [] /\
  LRUReplacer.lru_list (replacer_ pool_exhausted) = [] /\
  LRUReplacer.latch (replacer_ pool_exhausted) = false /\
  page_table_ pool_exhausted !! 9 = None /\
  returns_with (NewPageImpl pool_exhausted) (fun r s' =>
    r = None /\
    free_list_ s' = [] /\ LRUReplacer.lru_list (replacer_ s') = [] /\
    LRUReplacer.latch (replacer_ s') = true /\
    NewPageImpl s' = Blocks /\ FetchPageImpl 9 s' = Blocks).
Proof. vm_compute. repeat split. Qed.

(** C8. At the input [pinned_after_exhaustion] (page 0 resident at frame 0
    with pin count 1, after one [NewPageImpl] that found no frame):
    [UnpinPageImpl 0] does not return true.  The decrement brings the pin
    count to 0, so the method calls [replacer_->Unpin], which waits for the
    latch that the failed [Victim] left held: the call never returns,
    whatever the dirty flag. *)
Theorem unpin_after_exhaustion_blocks :
  page_table_ pinned_after_exhaustion !! 0 = Some 0 /\
  pin_count_ <$> pages_ pinned_after_exhaustion !! 0%nat = Some 1 /\
  LRUReplacer.lru_list (replacer_ pinned_after_exhaustion) = [] /\
  LRUReplacer.latch (replacer_ pinned_after_exhaustion) = true /\
  UnpinPageImpl 0 false pinned_after_exhaustion = Blocks /\
  UnpinPageImpl 0 true pinned_after_exhaustion = Blocks.
Proof. vm_compute. repeat split. Qed.

(** C9. At the input "an empty replacer of capacity 3": the first [Victim]
    returns none and leaves the latch held; the replacer is still empty, yet
    a second [Victim] does not return none, it waits for the latch for
    ever; and so does an [Unpin], so no frame can be tracked any more. *)
Theorem second_victim_on_empty_blocks :
  returns_with (LRUReplacer.Victim (LRUReplacer.init 3)) (fun o r' =>
    o = None /\
    LRUReplacer.lru_list r' = [] /\ LRUReplacer.latch r' = true /\
    LRUReplacer.Victim r' = Blocks /\
    LRUReplacer.Unpin 0 r' = Blocks) /\
  (LRUReplacer.Victim ;; LRUReplacer.Victim)%monad (LRUReplacer.init 3) = Blocks.
Proof. vm_compute. repeat split. Qed.
